(** * whatsmeow: the dispatcher and the app-state sync of the client

    A shallow embedding of [appstate.go] (FetchAppState, dispatchAppState,
    fetchAppStatePatches, downloadExternalAppStateBlob) and of the client
    core (NewClient, handleFrame, handlerQueueLoop, dispatchEvent).

    The client is a record of its fields; every method is a function in a
    state-and-outcome monad over that record.  Calls that leave the client
    (store, logger, event handlers, socket) are appended to a trace, so that
    "no event is dispatched" or "no store write is performed" are statements
    about the trace.  The packages the client imports but which are not part
    of these files (store, codec, protobuf schema, patch decoder, IQ layer)
    are the fields of the class [Env]. *)

From Stdlib Require Import ZArith NArith String List Lia.
From stdpp Require Import base option list gmap strings pretty relations.

Open Scope string_scope.
Open Scope list_scope.

(** ** Values shared by all packages *)

(** A Go [error] value.  Errors of the collaborators carry their message;
    [fmt.Errorf(format, args..., err)] with a closing [%w] wraps a cause. *)
Inductive error : Type :=
| ErrExternal (msg : string)
| Errorf (format : string) (args : list string) (cause : error).

(** [time.Time]: the zero value of the struct, or [time.Unix(sec, 0)]. *)
Inductive Time : Type :=
| ZeroTime
| time_Unix (sec : Z).

Definition Hash : Type := list Byte.byte.

(** ** Package types: JIDs *)
Module types.

(** Modelled from the spec: the JID struct of package [types] (section 3,
    "user[.agent[:device]]@server"); the zero value has every field zero. *)
Record JID : Type := mkJID {
  User : string;
  Agent : N;
  Device : N;
  Server : string;
  AD : bool
}.

Definition EmptyJID : JID :=
  {| User := ""; Agent := 0%N; Device := 0%N; Server := ""; AD := false |}.

End types.

(** ** Package binary: nodes *)

(** Modelled from the spec: the attribute values of a node (section 3:
    string, integer, JID, boolean); [fetchAppStatePatches] writes a string,
    a [uint64] and a boolean. *)
Inductive AttrValue : Type :=
| AString (s : string)
| AUint64 (n : N)
| ABool (b : bool)
| AJID (j : types.JID).

(** Modelled from the spec: the node of package [binary] (section 3): a
    tag, an attribute map and a content that is absent, a byte blob or a
    list of child nodes.  The fields are the ones of the struct literals
    in [fetchAppStatePatches]. *)
Inductive Node : Type :=
| mkNode (Tag : string) (Attrs : list (string * AttrValue)) (Content : NodeContent)
with NodeContent : Type :=
| NoContent
| Bytes (b : list Byte.byte)
| Children (l : list Node).

Definition Tag (n : Node) : string := let 'mkNode t _ _ := n in t.
Definition Attrs (n : Node) : list (string * AttrValue) := let 'mkNode _ a _ := n in a.
Definition Content (n : Node) : NodeContent := let 'mkNode _ _ c := n in c.

(** Lookup in the attribute map of a node ([node.Attrs[key]]). *)
Fixpoint attr_lookup (key : string) (attrs : list (string * AttrValue)) : option AttrValue :=
  match attrs with
  | [] => None
  | (k, v) :: rest => if String.eqb k key then Some v else attr_lookup key rest
  end.

(** ** Package binary/proto: the sync actions

    The protobuf schema is not among the sources.  Each message has the
    optional fields that the getters called in [dispatchAppState] read;
    every getter is nil-safe and returns the zero value for a nil receiver
    or an unset field (the contract of generated protobuf code). *)
Module waProto.

Inductive SyncdMutation_SyncdOperation : Type :=
| SyncdMutation_SET
| SyncdMutation_REMOVE.

Record MuteAction : Type :=
  { Muted : option bool; MuteEndTimestamp : option Z }.
Record PinAction : Type := { Pinned : option bool }.
Record ArchiveChatAction : Type := { Archived : option bool }.
Record ContactAction : Type :=
  { FullName : option string; FirstName : option string }.
Record PushNameSetting : Type := { Name : option string }.

(** The three messages of which the client reads no field and which it
    only hands on in an event: kept as their encoded bytes. *)
Definition StarAction : Type := list Byte.byte.
Definition DeleteMessageForMeAction : Type := list Byte.byte.
Definition UnarchiveChatsSetting : Type := list Byte.byte.

Record SyncActionValue : Type := {
  Timestamp : option Z;
  starAction : option StarAction;
  contactAction : option ContactAction;
  muteAction : option MuteAction;
  pinAction : option PinAction;
  pushNameSetting : option PushNameSetting;
  unarchiveChatsSetting : option UnarchiveChatsSetting;
  archiveChatAction : option ArchiveChatAction;
  deleteMessageForMeAction : option DeleteMessageForMeAction
}.

(** [x.GetF()] on a pointer receiver [x] for a scalar field [F]. *)
Definition get {R A : Type} (f : R -> option A) (zero : A) (x : option R) : A :=
  match x with
  | Some r => match f r with Some v => v | None => zero end
  | None => zero
  end.

(** [x.GetF()] for a message field [F]: nil for a nil receiver. *)
Definition get_msg {R A : Type} (f : R -> option A) (x : option R) : option A :=
  match x with
  | Some r => f r
  | None => None
  end.

Definition GetTimestamp := get Timestamp 0%Z.
Definition GetMuteAction := get_msg muteAction.
Definition GetPinAction := get_msg pinAction.
Definition GetArchiveChatAction := get_msg archiveChatAction.
Definition GetContactAction := get_msg contactAction.
Definition GetStarAction := get_msg starAction.
Definition GetDeleteMessageForMeAction := get_msg deleteMessageForMeAction.
Definition GetPushNameSetting := get_msg pushNameSetting.
Definition GetUnarchiveChatsSetting := get_msg unarchiveChatsSetting.

Definition GetMuted := get Muted false.
Definition GetMuteEndTimestamp := get MuteEndTimestamp 0%Z.
Definition GetPinned := get Pinned false.
Definition GetArchived := get Archived false.
Definition GetFirstName := get FirstName "".
Definition GetFullName := get FullName "".
Definition GetName := get Name "".

End waProto.

(** ** Package appstate: names, hash states, mutations *)
Module appstate.

Definition WAPatchName : Type := string.

Record HashState : Type := { Version : N; Hash_ : Hash }.

Record Mutation : Type := {
  Operation : waProto.SyncdMutation_SyncdOperation;
  Action : option waProto.SyncActionValue;
  Index : list string
}.

End appstate.

(** ** Package types/events: what the host receives *)
Module events.

Inductive Event : Type :=
| AppState (Index : list string) (SyncActionValue : option waProto.SyncActionValue)
| Mute (jid : types.JID) (Timestamp : Time) (Action : option waProto.MuteAction)
| Pin (jid : types.JID) (Timestamp : Time) (Action : option waProto.PinAction)
| Archive (jid : types.JID) (Timestamp : Time) (Action : option waProto.ArchiveChatAction)
| Contact (jid : types.JID) (Timestamp : Time) (Action : option waProto.ContactAction)
| Star (ChatJID SenderJID : types.JID) (IsFromMe : bool) (MessageID : string)
       (Timestamp : Time) (Action : option waProto.StarAction)
| DeleteForMe (ChatJID SenderJID : types.JID) (IsFromMe : bool) (MessageID : string)
              (Timestamp : Time) (Action : option waProto.DeleteMessageForMeAction)
| PushNameSetting (Timestamp : Time) (Action : option waProto.PushNameSetting)
| UnarchiveChatsSetting (Timestamp : Time) (Action : option waProto.UnarchiveChatsSetting)
| AppStateSyncComplete (Name : appstate.WAPatchName).

(** The events of the taxonomy that report one mutation. *)
Definition per_mutation (e : Event) : bool :=
  match e with
  | AppStateSyncComplete _ => false
  | _ => true
  end.

End events.

(** The request of the IQ layer, with the fields [fetchAppStatePatches] sets. *)
Record infoQuery : Type := {
  Namespace : string;
  Type_ : string;
  To : types.JID;
  IQContent : list Node
}.

(** Modelled from the spec: [appstate.PatchList] (section 3: name,
    has_more, patches, optional snapshot); the client reads
    [HasMorePatches], the patches and the snapshot are protobuf messages
    that it only passes on. *)
Record PatchList (SyncdPatch SyncdSnapshot : Type) : Type := {
  Name : appstate.WAPatchName;
  HasMorePatches : bool;
  Patches : list SyncdPatch;
  Snapshot : option SyncdSnapshot
}.
Arguments Name {_ _} _.
Arguments HasMorePatches {_ _} _.
Arguments Patches {_ _} _.
Arguments Snapshot {_ _} _.

(** ** The client's tag handlers and its calls to the outside *)

(** The six methods that [NewClient] puts in the handler table. *)
Inductive nodeHandler : Type :=
| handleEncryptedMessage
| handleReceipt
| handleNotification
| handleConnectSuccess
| handleStreamError
| handleIQ.

(** A response waiter's channel, known by its identity. *)
Definition Chan : Type := N.

Inductive Logger : Type := Log | recvLog | sendLog.
Inductive Level : Type := LvlDebug | LvlWarn | LvlError.
Inductive LogArg : Type :=
| LErr (e : error)
| LHex (b : list Byte.byte)
| LXML (n : Node).

(** One call that leaves the client, in the order the calls are made. *)
Inductive Effect : Type :=
| ELog (logger : Logger) (level : Level) (format : string) (args : list LogArg)
| EDispatchEvent (evt : events.Event)
| EDeleteAppStateVersion (name : string)
| EGetAppStateVersion (name : string)
| EPutMutedUntil (jid : types.JID) (mutedUntil : Time)
| EPutPinned (jid : types.JID) (pinned : bool)
| EPutArchived (jid : types.JID) (archived : bool)
| EPutContactName (jid : types.JID) (firstName fullName : string)
| ESave (pushName : string)
| ESendIQ (query : infoQuery)
| EDecodePatches (state : appstate.HashState) (validateMACs : bool)
| EChanSend (ch : Chan) (node : Node)
| EInvokeHandler (h : nodeHandler) (node : Node).

(** The events handed to [dispatchEvent], oldest first. *)
Definition events_of (tr : list Effect) : list events.Event :=
  omap (fun e => match e with EDispatchEvent evt => Some evt | _ => None end) tr.

Definition is_log (e : Effect) : bool :=
  match e with ELog _ _ _ _ => true | _ => false end.

(** ** What the client imports

    The state [W] of everything outside the client (the database behind the
    store, the server, the host application) and the functions of the
    packages that are not part of these files.  A function that returns
    [(value, err)] in Go and whose value is only used when [err] is nil
    returns a sum here; [ParseJID], whose error the client drops, returns
    the pair. *)
Class Env : Type := {
  W : Type;
  SyncdPatch : Type;
  SyncdSnapshot : Type;
  SyncdMutations : Type;
  ExternalBlobReference : Type;
  types_ParseJID : string -> types.JID * option error;
  types_ServerJID : types.JID;
  waBinary_Unpack : list Byte.byte -> list Byte.byte + error;
  waBinary_Unmarshal : list Byte.byte -> Node + error;
  proto_Unmarshal : list Byte.byte -> SyncdMutations + error;
  cli_Download : ExternalBlobReference -> W -> W * (list Byte.byte + error);
  cli_sendIQ : infoQuery -> W -> W * (Node + error);
  appstate_ParsePatchList :
    Node -> (ExternalBlobReference -> W -> W * (SyncdMutations + error)) ->
    W -> W * (PatchList SyncdPatch SyncdSnapshot + error);
  Processor_DecodePatches :
    PatchList SyncdPatch SyncdSnapshot -> appstate.HashState -> bool ->
    W -> W * (list appstate.Mutation * appstate.HashState + error);
  run_nodeHandler : nodeHandler -> Node -> W -> W
}.

Section Client.

Context `{env : Env}.

(** *** Package store: the device and its sub-stores

    The sub-stores are Go interfaces: records of methods that act on the
    outside world.  [GetAppStateVersion] is a query and leaves the world as
    it is. *)
Record AppStateStore : Type := {
  DeleteAppStateVersion : string -> W -> W * option error;
  GetAppStateVersion : string -> W -> N * Hash * option error
}.

Record ChatSettingsStore : Type := {
  PutMutedUntil : types.JID -> Time -> W -> W * option error;
  PutPinned : types.JID -> bool -> W -> W * option error;
  PutArchived : types.JID -> bool -> W -> W * option error
}.

Record ContactStore : Type := {
  PutContactName : types.JID -> string -> string -> W -> W * option error
}.

(** [store.Device]: [ChatSettings] and [Contacts] may be nil; [Save]
    persists the root fields, of which the client writes [PushName]. *)
Record Device : Type := {
  AppState : AppStateStore;
  ChatSettings : option ChatSettingsStore;
  Contacts : option ContactStore;
  PushName : string;
  Save : string -> W -> W * option error
}.

Definition set_PushName (name : string) (d : Device) : Device :=
  {| AppState := AppState d; ChatSettings := ChatSettings d;
     Contacts := Contacts d; PushName := name; Save := Save d |}.

(** *** The client

    The fields of the [Client] struct that these files use, the
    package-level variable [EmitAppStateEventsOnFullSync], the mutex of
    [FetchAppState] ([true] when held), the goroutines that [handleFrame]
    spawned and that still wait to send ([senders]), the outside world and
    the trace of calls. *)
Record Client : Type := {
  Store : Device;
  responseWaiters : gmap string Chan;
  nodeHandlers : gmap string nodeHandler;
  handlerQueue : list Node;
  eventHandlers : list (events.Event -> W -> W);
  uniqueID : string;
  idCounter : N;
  appStateSyncLock : bool;
  EmitAppStateEventsOnFullSync : bool;
  senders : list Node;
  world : W;
  trace : list Effect
}.

Definition handlerQueueSize : nat := 2048.

Definition set_Store (f : Device -> Device) (c : Client) : Client :=
  {| Store := f (Store c); responseWaiters := responseWaiters c;
     nodeHandlers := nodeHandlers c; handlerQueue := handlerQueue c;
     eventHandlers := eventHandlers c; uniqueID := uniqueID c;
     idCounter := idCounter c; appStateSyncLock := appStateSyncLock c;
     EmitAppStateEventsOnFullSync := EmitAppStateEventsOnFullSync c;
     senders := senders c; world := world c; trace := trace c |}.

Definition set_responseWaiters (f : gmap string Chan -> gmap string Chan) (c : Client) : Client :=
  {| Store := Store c; responseWaiters := f (responseWaiters c);
     nodeHandlers := nodeHandlers c; handlerQueue := handlerQueue c;
     eventHandlers := eventHandlers c; uniqueID := uniqueID c;
     idCounter := idCounter c; appStateSyncLock := appStateSyncLock c;
     EmitAppStateEventsOnFullSync := EmitAppStateEventsOnFullSync c;
     senders := senders c; world := world c; trace := trace c |}.

Definition set_handlerQueue (f : list Node -> list Node) (c : Client) : Client :=
  {| Store := Store c; responseWaiters := responseWaiters c;
     nodeHandlers := nodeHandlers c; handlerQueue := f (handlerQueue c);
     eventHandlers := eventHandlers c; uniqueID := uniqueID c;
     idCounter := idCounter c; appStateSyncLock := appStateSyncLock c;
     EmitAppStateEventsOnFullSync := EmitAppStateEventsOnFullSync c;
     senders := senders c; world := world c; trace := trace c |}.

Definition set_eventHandlers
    (f : list (events.Event -> W -> W) -> list (events.Event -> W -> W)) (c : Client) : Client :=
  {| Store := Store c; responseWaiters := responseWaiters c;
     nodeHandlers := nodeHandlers c; handlerQueue := handlerQueue c;
     eventHandlers := f (eventHandlers c); uniqueID := uniqueID c;
     idCounter := idCounter c; appStateSyncLock := appStateSyncLock c;
     EmitAppStateEventsOnFullSync := EmitAppStateEventsOnFullSync c;
     senders := senders c; world := world c; trace := trace c |}.

Definition set_appStateSyncLock (b : bool) (c : Client) : Client :=
  {| Store := Store c; responseWaiters := responseWaiters c;
     nodeHandlers := nodeHandlers c; handlerQueue := handlerQueue c;
     eventHandlers := eventHandlers c; uniqueID := uniqueID c;
     idCounter := idCounter c; appStateSyncLock := b;
     EmitAppStateEventsOnFullSync := EmitAppStateEventsOnFullSync c;
     senders := senders c; world := world c; trace := trace c |}.

Definition set_senders (f : list Node -> list Node) (c : Client) : Client :=
  {| Store := Store c; responseWaiters := responseWaiters c;
     nodeHandlers := nodeHandlers c; handlerQueue := handlerQueue c;
     eventHandlers := eventHandlers c; uniqueID := uniqueID c;
     idCounter := idCounter c; appStateSyncLock := appStateSyncLock c;
     EmitAppStateEventsOnFullSync := EmitAppStateEventsOnFullSync c;
     senders := f (senders c); world := world c; trace := trace c |}.

Definition set_world (w : W) (c : Client) : Client :=
  {| Store := Store c; responseWaiters := responseWaiters c;
     nodeHandlers := nodeHandlers c; handlerQueue := handlerQueue c;
     eventHandlers := eventHandlers c; uniqueID := uniqueID c;
     idCounter := idCounter c; appStateSyncLock := appStateSyncLock c;
     EmitAppStateEventsOnFullSync := EmitAppStateEventsOnFullSync c;
     senders := senders c; world := w; trace := trace c |}.

(** Appends one call to the trace. *)
Definition record (e : Effect) (c : Client) : Client :=
  {| Store := Store c; responseWaiters := responseWaiters c;
     nodeHandlers := nodeHandlers c; handlerQueue := handlerQueue c;
     eventHandlers := eventHandlers c; uniqueID := uniqueID c;
     idCounter := idCounter c; appStateSyncLock := appStateSyncLock c;
     EmitAppStateEventsOnFullSync := EmitAppStateEventsOnFullSync c;
     senders := senders c; world := world c; trace := trace c ++ [e] |}.

(** *** Outcomes of a method call

    A call returns a value and the client after it, panics (index out of
    range, call through a nil interface), waits forever on the held mutex
    or on the empty queue, or runs out of the fuel that bounds the sync
    loop. *)
Inductive Outcome (A : Type) : Type :=
| Ok (a : A) (c : Client)
| Panic (reason : string)
| Blocked
| OutOfFuel.
Arguments Ok {A} a c.
Arguments Panic {A} reason.
Arguments Blocked {A}.
Arguments OutOfFuel {A}.

Definition M (A : Type) : Type := Client -> Outcome A.

Definition ret {A : Type} (a : A) : M A := fun c => Ok a c.

Definition bind {A B : Type} (m : M A) (k : A -> M B) : M B := fun c =>
  match m c with
  | Ok a c' => k a c'
  | Panic r => Panic r
  | Blocked => Blocked
  | OutOfFuel => OutOfFuel
  end.

Definition panic {A : Type} (reason : string) : M A := fun _ => Panic reason.

Definition gets {A : Type} (f : Client -> A) : M A := fun c => Ok (f c) c.

Definition modify (f : Client -> Client) : M unit := fun c => Ok tt (f c).

End Client.

Arguments Ok {env A} a c.
Arguments Panic {env A} reason.
Arguments Blocked {env A}.
Arguments OutOfFuel {env A}.

Notation "x <- c1 ;; c2" := (bind c1 (fun x => c2))
  (at level 100, c1 at next level, right associativity).
Notation "c1 ;; c2" := (bind c1 (fun _ => c2))
  (at level 100, right associativity).

Section Methods.

Context `{env : Env}.

(** *** Go primitives *)

(** [s[i]] on a slice: a run-time panic when [i] is out of range. *)
Definition index_at (s : list string) (i : nat) : M string :=
  match s !! i with
  | Some x => ret x
  | None => panic "index out of range"
  end.

(** [for _, x := range xs { body }]. *)
Fixpoint for_range {A : Type} (xs : list A) (body : A -> M unit) : M unit :=
  match xs with
  | [] => ret tt
  | x :: rest => body x ;; for_range rest body
  end.

(** A call of an outside function: it runs on the world. *)
Definition call {A : Type} (f : W -> W * A) : M A := fun c =>
  let '(w, a) := f (world c) in Ok a (set_world w c).

(** [mu.Lock()]: waits while the mutex is held. *)
Definition Lock : M unit := fun c =>
  if appStateSyncLock c then Blocked else Ok tt (set_appStateSyncLock true c).

Definition Unlock : M unit := modify (set_appStateSyncLock false).

(** [defer d] at the head of a function body: [d] runs when the body
    returns; a panic of the body goes on after [d]. *)
Definition defer {A : Type} (d : M unit) (body : M A) : M A := fun c =>
  match body c with
  | Ok a c' =>
      match d c' with
      | Ok _ c'' => Ok a c''
      | Panic r => Panic r
      | Blocked => Blocked
      | OutOfFuel => OutOfFuel
      end
  | Panic r => Panic r
  | Blocked => Blocked
  | OutOfFuel => OutOfFuel
  end.

(** The loggers: [cli.Log.Warnf(...)] and the like. *)
Definition logf (l : Logger) (lvl : Level) (format : string) (args : list LogArg) : M unit :=
  modify (record (ELog l lvl format args)).

(** *** The event bus *)

(** [dispatchEvent]: every registered handler is called with the event, in
    registration order. *)
Definition dispatchEvent (evt : events.Event) : M unit := fun c =>
  Ok tt (set_world (fold_left (fun w handler => handler evt w) (eventHandlers c) (world c))
           (record (EDispatchEvent evt) c)).

Definition AddEventHandler (handler : events.Event -> W -> W) : M unit :=
  modify (set_eventHandlers (fun hs => hs ++ [handler])).

(** *** Method calls on the device store

    A call through a nil interface value panics; the callers guard the two
    sub-stores that may be nil. *)
Definition AppState_DeleteAppStateVersion (name : string) : M (option error) :=
  modify (record (EDeleteAppStateVersion name)) ;;
  st <- gets (fun c => AppState (Store c)) ;;
  call (DeleteAppStateVersion st name).

Definition AppState_GetAppStateVersion (name : string) : M (N * Hash * option error) :=
  modify (record (EGetAppStateVersion name)) ;;
  st <- gets (fun c => AppState (Store c)) ;;
  w <- gets world ;;
  ret (GetAppStateVersion st name w).

Definition ChatSettings_call (e : Effect)
    (method : ChatSettingsStore -> W -> W * option error) : M (option error) :=
  cs <- gets (fun c => ChatSettings (Store c)) ;;
  match cs with
  | None => panic "nil pointer dereference"
  | Some st => modify (record e) ;; call (method st)
  end.

Definition ChatSettings_PutMutedUntil (jid : types.JID) (mutedUntil : Time) :=
  ChatSettings_call (EPutMutedUntil jid mutedUntil) (fun st => PutMutedUntil st jid mutedUntil).

Definition ChatSettings_PutPinned (jid : types.JID) (pinned : bool) :=
  ChatSettings_call (EPutPinned jid pinned) (fun st => PutPinned st jid pinned).

Definition ChatSettings_PutArchived (jid : types.JID) (archived : bool) :=
  ChatSettings_call (EPutArchived jid archived) (fun st => PutArchived st jid archived).

Definition Contacts_PutContactName (jid : types.JID) (firstName fullName : string)
    : M (option error) :=
  cs <- gets (fun c => Contacts (Store c)) ;;
  match cs with
  | None => panic "nil pointer dereference"
  | Some st =>
      modify (record (EPutContactName jid firstName fullName)) ;;
      call (PutContactName st jid firstName fullName)
  end.

Definition Store_Save : M (option error) :=
  d <- gets Store ;;
  modify (record (ESave (PushName d))) ;;
  call (Save d (PushName d)).

(** *** appstate.go *)

Definition is_SET (op : waProto.SyncdMutation_SyncdOperation) : bool :=
  match op with
  | waProto.SyncdMutation_SET => true
  | waProto.SyncdMutation_REMOVE => false
  end.

(** What the [switch] of [dispatchAppState] leaves behind: [Return] for
    the two [return] statements inside it, or the two variables
    [storeUpdateError] and [eventToDispatch]. *)
Inductive SwitchResult : Type :=
| Return
| Break (storeUpdateError : option error) (eventToDispatch : option events.Event).

(** [evt.SenderJID, _ = types.ParseJID(index4)] unless [index4] is "0". *)
Definition sender_of (index4 : string) : types.JID :=
  if negb (String.eqb index4 "0") then fst (types_ParseJID index4) else types.EmptyJID.

Definition dispatchAppState (mutation : appstate.Mutation) (dispatchEvts : bool) : M unit :=
  let index := appstate.Index mutation in
  let action := appstate.Action mutation in
  if negb (is_SET (appstate.Operation mutation)) then ret tt else
  (if dispatchEvts then dispatchEvent (events.AppState index action) else ret tt) ;;
  jid <- (if (1 <? length index)%nat
          then index1 <- index_at index 1 ;; ret (fst (types_ParseJID index1))
          else ret types.EmptyJID) ;;
  let ts := time_Unix (waProto.GetTimestamp action) in
  index0 <- index_at index 0 ;;
  r <- (if String.eqb index0 "mute" then
          let act := waProto.GetMuteAction action in
          let mutedUntil :=
            if waProto.GetMuted act
            then time_Unix (waProto.GetMuteEndTimestamp act) else ZeroTime in
          cs <- gets (fun c => ChatSettings (Store c)) ;;
          storeUpdateError <- (if bool_decide (cs <> None)
                               then ChatSettings_PutMutedUntil jid mutedUntil
                               else ret None) ;;
          ret (Break storeUpdateError (Some (events.Mute jid ts act)))
        else if String.eqb index0 "pin_v1" then
          let act := waProto.GetPinAction action in
          cs <- gets (fun c => ChatSettings (Store c)) ;;
          storeUpdateError <- (if bool_decide (cs <> None)
                               then ChatSettings_PutPinned jid (waProto.GetPinned act)
                               else ret None) ;;
          ret (Break storeUpdateError (Some (events.Pin jid ts act)))
        else if String.eqb index0 "archive" then
          let act := waProto.GetArchiveChatAction action in
          cs <- gets (fun c => ChatSettings (Store c)) ;;
          storeUpdateError <- (if bool_decide (cs <> None)
                               then ChatSettings_PutArchived jid (waProto.GetArchived act)
                               else ret None) ;;
          ret (Break storeUpdateError (Some (events.Archive jid ts act)))
        else if String.eqb index0 "contact" then
          let act := waProto.GetContactAction action in
          cs <- gets (fun c => Contacts (Store c)) ;;
          storeUpdateError <- (if bool_decide (cs <> None)
                               then Contacts_PutContactName jid (waProto.GetFirstName act)
                                      (waProto.GetFullName act)
                               else ret None) ;;
          ret (Break storeUpdateError (Some (events.Contact jid ts act)))
        else if String.eqb index0 "star" then
          if (length index <? 5)%nat then ret Return else
          index2 <- index_at index 2 ;;
          index3 <- index_at index 3 ;;
          index4 <- index_at index 4 ;;
          ret (Break None (Some (events.Star jid (sender_of index4) (String.eqb index3 "1")
                                   index2 ts (waProto.GetStarAction action))))
        else if String.eqb index0 "deleteMessageForMe" then
          if (length index <? 5)%nat then ret Return else
          index2 <- index_at index 2 ;;
          index3 <- index_at index 3 ;;
          index4 <- index_at index 4 ;;
          ret (Break None (Some (events.DeleteForMe jid (sender_of index4)
                                   (String.eqb index3 "1") index2 ts
                                   (waProto.GetDeleteMessageForMeAction action))))
        else if String.eqb index0 "setting_pushName" then
          let act := waProto.GetPushNameSetting action in
          modify (set_Store (set_PushName (waProto.GetName act))) ;;
          err <- Store_Save ;;
          match err with
          | Some e =>
              logf Log LvlError "Failed to save device store after updating push name: %v"
                [LErr e]
          | None => ret tt
          end ;;
          ret (Break None (Some (events.PushNameSetting ts act)))
        else if String.eqb index0 "setting_unarchiveChats" then
          ret (Break None (Some (events.UnarchiveChatsSetting ts
                                   (waProto.GetUnarchiveChatsSetting action))))
        else ret (Break None None)) ;;
  match r with
  | Return => ret tt
  | Break storeUpdateError eventToDispatch =>
      match storeUpdateError with
      | Some e =>
          logf Log LvlError "Failed to update device store after app state mutation: %v"
            [LErr e]
      | None => ret tt
      end ;;
      match dispatchEvts, eventToDispatch with
      | true, Some evt => dispatchEvent evt
      | _, _ => ret tt
      end
  end.

(** [downloadExternalAppStateBlob], the callback given to the patch-list
    parser: it runs outside the client's own state. *)
Definition downloadExternalAppStateBlob (ref : ExternalBlobReference)
    : W -> W * (SyncdMutations + error) := fun w =>
  let '(w', r) := cli_Download ref w in
  match r with
  | inr err => (w', inr err)
  | inl data =>
      match proto_Unmarshal data with
      | inr err => (w', inr (Errorf "failed to unmarshal mutation list: %w" [] err))
      | inl mutations => (w', inl mutations)
      end
  end.

(** Modelled from the spec: [sendIQ] (section 4.E) is not among the
    sources.  The request leaves the client and the reply, or the error,
    comes from the outside; no event is dispatched on the way. *)
Definition sendIQ (query : infoQuery) : M (Node + error) :=
  modify (record (ESendIQ query)) ;;
  call (cli_sendIQ query).

Definition fetchAppStatePatches (name : appstate.WAPatchName) (fromVersion : N)
    : M (PatchList SyncdPatch SyncdSnapshot + error) :=
  r <- sendIQ {| Namespace := "w:sync:app:state";
                 Type_ := "set";
                 To := types_ServerJID;
                 IQContent :=
                   [mkNode "sync" []
                      (Children
                         [mkNode "collection"
                            [("name", AString name);
                             ("version", AUint64 fromVersion);
                             ("return_snapshot", ABool false)]
                            NoContent])] |} ;;
  match r with
  | inr err => ret (inr err)
  | inl resp => call (appstate_ParsePatchList resp downloadExternalAppStateBlob)
  end.

(** Modelled from the spec: [appStateProc.DecodePatches] (section 4.F,
    steps 4 to 6) is not among the sources.  It verifies and decodes the
    patches and persists the new hash state, outside the client's own
    fields, and dispatches no event. *)
Definition appStateProc_DecodePatches (patches : PatchList SyncdPatch SyncdSnapshot)
    (state : appstate.HashState) (validateMACs : bool)
    : M (list appstate.Mutation * appstate.HashState + error) :=
  modify (record (EDecodePatches state validateMACs)) ;;
  call (Processor_DecodePatches patches state validateMACs).

(** The body of the range loop over the decoded mutations:
    [cli.dispatchAppState(mutation, !fullSync || EmitAppStateEventsOnFullSync)]. *)
Definition dispatch_mutation (fullSync : bool) (mutation : appstate.Mutation) : M unit :=
  emit <- gets EmitAppStateEventsOnFullSync ;;
  dispatchAppState mutation (negb fullSync || emit).

(** The [for hasMore] loop of [FetchAppState]; [Some err] when the body
    returned [err] from the function, [None] when the loop ended. *)
Fixpoint FetchAppState_loop (fuel : nat) (name : appstate.WAPatchName) (fullSync : bool)
    (state : appstate.HashState) : M (option error) :=
  match fuel with
  | O => fun _ => OutOfFuel
  | S fuel' =>
      r <- fetchAppStatePatches name (appstate.Version state) ;;
      match r with
      | inr err => ret (Some (Errorf "failed to fetch app state %s patches: %w" [name] err))
      | inl patches =>
          let hasMore := HasMorePatches patches in
          d <- appStateProc_DecodePatches patches state true ;;
          match d with
          | inr err =>
              ret (Some (Errorf "failed to decode app state %s patches: %w" [name] err))
          | inl (mutations, newState) =>
              for_range mutations (dispatch_mutation fullSync) ;;
              if hasMore then FetchAppState_loop fuel' name fullSync newState
              else ret None
          end
      end
  end.

(** The part of [FetchAppState] after the version check: the sync loop and
    the closing event. *)
Definition FetchAppState_sync (fuel : nat) (name : appstate.WAPatchName) (fullSync : bool)
    (state : appstate.HashState) : M (option error) :=
  r <- FetchAppState_loop fuel name fullSync state ;;
  match r with
  | Some e => ret (Some e)
  | None =>
      (if fullSync then dispatchEvent (events.AppStateSyncComplete name) else ret tt) ;;
      ret None
  end.

Definition FetchAppState (fuel : nat) (name : appstate.WAPatchName)
    (fullSync onlyIfNotSynced : bool) : M (option error) :=
  Lock ;;
  defer Unlock (
    err <- (if fullSync then AppState_DeleteAppStateVersion name else ret None) ;;
    match err with
    | Some e => ret (Some (Errorf "failed to reset app state %s version: %w" [name] e))
    | None =>
        got <- AppState_GetAppStateVersion name ;;
        let '(version, hash, err) := got in
        match err with
        | Some e => ret (Some (Errorf "failed to get app state %s version: %w" [name] e))
        | None =>
            let state := {| appstate.Version := version; appstate.Hash_ := hash |} in
            if (version =? 0)%N then FetchAppState_sync fuel name true state
            else if onlyIfNotSynced then ret None
            else FetchAppState_sync fuel name fullSync state
        end
    end).

(** *** The dispatcher *)

(** The handler table that [NewClient] builds. *)
Definition NewClient_nodeHandlers : gmap string nodeHandler :=
  <["message" := handleEncryptedMessage]>
  (<["receipt" := handleReceipt]>
  (<["notification" := handleNotification]>
  (<["success" := handleConnectSuccess]>
  (<["stream:error" := handleStreamError]>
  (<["iq" := handleIQ]> ∅))))).

(** [NewClient]: empty waiter table, empty queue of capacity
    [handlerQueueSize], no event handlers, and the six tag handlers.  The
    two random bytes, the current value of the package variable and the
    outside world are arguments. *)
Definition NewClient (deviceStore : Device) (randomBytes : Byte.byte * Byte.byte)
    (emit : bool) (w : W) : Client :=
  {| Store := deviceStore;
     responseWaiters := ∅;
     nodeHandlers := NewClient_nodeHandlers;
     handlerQueue := [];
     eventHandlers := [];
     uniqueID := pretty (Byte.to_N (fst randomBytes)) ++ "." ++
                 pretty (Byte.to_N (snd randomBytes)) ++ "-";
     idCounter := 0%N;
     appStateSyncLock := false;
     EmitAppStateEventsOnFullSync := emit;
     senders := [];
     world := w;
     trace := [] |}.

(** Modelled from the spec: [receiveResponse] (section 4.D step 3 and the
    response waiter table of section 3) is not among the sources.  If the
    node has an [id] attribute and that ID is in the waiter map, the waiter
    is removed and the node is delivered through its channel. *)
Definition receiveResponse (node : Node) : M bool :=
  match attr_lookup "id" (Attrs node) with
  | Some (AString id) =>
      waiters <- gets responseWaiters ;;
      match waiters !! id with
      | Some waiter =>
          modify (set_responseWaiters (delete id)) ;;
          modify (record (EChanSend waiter node)) ;;
          ret true
      | None => ret false
      end
  | _ => ret false
  end.

(** [select { case cli.handlerQueue <- node: ...; default: ... }]: the send
    is taken when the buffer has room. *)
Definition handlerQueue_try_send (node : Node) : M bool := fun c =>
  if (length (handlerQueue c) <? handlerQueueSize)%nat
  then Ok true (set_handlerQueue (fun q => q ++ [node]) c)
  else Ok false c.

(** [go func() { cli.handlerQueue <- node }()]: one more goroutine that
    waits to send. *)
Definition go_send (node : Node) : M unit :=
  modify (set_senders (fun s => s ++ [node])).

Definition handleFrame (data : list Byte.byte) : M unit :=
  match waBinary_Unpack data with
  | inr err =>
      logf Log LvlWarn "Failed to decompress frame: %v" [LErr err] ;;
      logf Log LvlDebug "Errored frame hex: %s" [LHex data]
  | inl decompressed =>
      match waBinary_Unmarshal decompressed with
      | inr err =>
          logf Log LvlWarn "Failed to decode node in frame: %v" [LErr err] ;;
          logf Log LvlDebug "Errored frame hex: %s" [LHex decompressed]
      | inl node =>
          logf recvLog LvlDebug "%s" [LXML node] ;;
          if String.eqb (Tag node) "xmlstreamend" then
            logf Log LvlWarn "Received stream end frame" []
          else
            handled <- receiveResponse node ;;
            if handled then ret tt
            else
              handlers <- gets nodeHandlers ;;
              match handlers !! Tag node with
              | Some _ =>
                  sent <- handlerQueue_try_send node ;;
                  if sent then ret tt
                  else
                    logf Log LvlWarn
                      "Handler queue is full, message ordering is no longer guaranteed" [] ;;
                    go_send node
              | None => logf Log LvlDebug "Didn't handle WhatsApp node" []
              end
      end
  end.

(** One turn of a goroutine spawned by [handleFrame], the [i]-th of those
    that still wait: its blocking send completes when the buffer has room,
    and until then it stays where it is. *)
Definition sender_step (i : nat) : M unit := fun c =>
  match senders c !! i with
  | None => Blocked
  | Some node =>
      if (length (handlerQueue c) <? handlerQueueSize)%nat
      then Ok tt (set_handlerQueue (fun q => q ++ [node])
                    (set_senders (fun s => take i s ++ drop (S i) s) c))
      else Blocked
  end.

(** One turn of [handlerQueueLoop] that takes the receive case of its
    [select]: the oldest node of the queue goes to the handler of its tag. *)
Definition handlerQueueLoop_step : M unit := fun c =>
  match handlerQueue c with
  | [] => Blocked
  | node :: rest =>
      match nodeHandlers c !! Tag node with
      | None => Panic "call of nil func"
      | Some h =>
          Ok tt (set_world (run_nodeHandler h node (world c))
                   (record (EInvokeHandler h node)
                      (set_handlerQueue (fun _ => rest) c)))
      end
  end.

End Methods.

(** ** Vocabulary of the statements *)

(** The index kind that a typed event reports. *)
Definition typed_kind (e : events.Event) : option string :=
  match e with
  | events.Mute _ _ _ => Some "mute"
  | events.Pin _ _ _ => Some "pin_v1"
  | events.Archive _ _ _ => Some "archive"
  | events.Contact _ _ _ => Some "contact"
  | events.Star _ _ _ _ _ _ => Some "star"
  | events.DeleteForMe _ _ _ _ _ _ => Some "deleteMessageForMe"
  | events.PushNameSetting _ _ => Some "setting_pushName"
  | events.UnarchiveChatsSetting _ _ => Some "setting_unarchiveChats"
  | events.AppState _ _ | events.AppStateSyncComplete _ => None
  end.

(** The chat JID that a store write or a typed event carries, the one
    that [dispatchAppState] parses from [Index[1]]. *)
Definition chat_jid (e : Effect) : option types.JID :=
  match e with
  | EPutMutedUntil jid _ | EPutPinned jid _ | EPutArchived jid _
  | EPutContactName jid _ _ => Some jid
  | EDispatchEvent (events.Mute jid _ _) | EDispatchEvent (events.Pin jid _ _)
  | EDispatchEvent (events.Archive jid _ _) | EDispatchEvent (events.Contact jid _ _)
  | EDispatchEvent (events.Star jid _ _ _ _ _)
  | EDispatchEvent (events.DeleteForMe jid _ _ _ _ _) => Some jid
  | _ => None
  end.

(** What a run of [dispatchAppState] may add to the trace when it is
    called with [dispatchEvts = evts]: events only when [evts] is set, and
    then only per-mutation events. *)
Definition event_ok (evts : bool) (e : Effect) : Prop :=
  match e with
  | EDispatchEvent evt => evts = true /\ events.per_mutation evt = true
  | _ => True
  end.

Section Vocabulary.

Context `{env : Env}.

(** The client after [dispatchEvent evt]. *)
Definition dispatched (evt : events.Event) (c : Client) : Client :=
  set_world (fold_left (fun w handler => handler evt w) (eventHandlers c) (world c))
    (record (EDispatchEvent evt) c).

(** The fields that the app-state sync never writes. *)
Definition same_frame (c c' : Client) : Prop :=
  responseWaiters c' = responseWaiters c /\
  nodeHandlers c' = nodeHandlers c /\
  handlerQueue c' = handlerQueue c /\
  eventHandlers c' = eventHandlers c /\
  appStateSyncLock c' = appStateSyncLock c /\
  EmitAppStateEventsOnFullSync c' = EmitAppStateEventsOnFullSync c /\
  senders c' = senders c /\
  AppState (Store c') = AppState (Store c) /\
  ChatSettings (Store c') = ChatSettings (Store c) /\
  Contacts (Store c') = Contacts (Store c) /\
  Save (Store c') = Save (Store c).

(** [c'] is [c] after some calls, each of them allowed. *)
Definition grows (allowed : Effect -> Prop) (c c' : Client) : Prop :=
  same_frame c c' /\ exists tr, trace c' = trace c ++ tr /\ Forall allowed tr.

(** Weakest precondition of a method: [Q] holds of the value and the
    client it returns; [d] says what any other outcome is worth ([True] for
    partial, [False] for total correctness). *)
Definition wpg {A : Type} (d : Prop) (m : M A) (Q : A -> Client -> Prop) (c : Client) : Prop :=
  match m c with
  | Ok a c' => Q a c'
  | _ => d
  end.

(** The contract of the app-state store that the full sync relies on
    (section 4.F step 1, "version becomes 0"): after a successful delete of
    a collection, a successful read of its version gives 0. *)
Definition delete_resets (st : AppStateStore) (name : string) (w : W) : Prop :=
  forall w', DeleteAppStateVersion st name w = (w', None) ->
  forall v h, GetAppStateVersion st name w' = (v, h, None) -> v = 0%N.

(** The version that [FetchAppState] reads: from the world as it is, or as
    the delete of a full sync leaves it. *)
Definition version_read (name : string) (fullSync : bool) (c : Client) : N :=
  let st := AppState (Store c) in
  let w := if fullSync then fst (DeleteAppStateVersion st name (world c)) else world c in
  fst (fst (GetAppStateVersion st name w)).

(** Two sub-stores that write the same but may report different errors. *)
Definition same_writes_ChatSettings (s1 s2 : ChatSettingsStore) : Prop :=
  (forall jid t w, fst (PutMutedUntil s1 jid t w) = fst (PutMutedUntil s2 jid t w)) /\
  (forall jid b w, fst (PutPinned s1 jid b w) = fst (PutPinned s2 jid b w)) /\
  (forall jid b w, fst (PutArchived s1 jid b w) = fst (PutArchived s2 jid b w)).

Definition same_writes_Contacts (s1 s2 : ContactStore) : Prop :=
  forall jid first full w,
    fst (PutContactName s1 jid first full w) = fst (PutContactName s2 jid first full w).

Definition same_writes (d1 d2 : Device) : Prop :=
  AppState d1 = AppState d2 /\
  option_Forall2 same_writes_ChatSettings (ChatSettings d1) (ChatSettings d2) /\
  option_Forall2 same_writes_Contacts (Contacts d1) (Contacts d2) /\
  PushName d1 = PushName d2 /\
  (forall name w, fst (Save d1 name w) = fst (Save d2 name w)).

(** The trace without the log lines. *)
Definition unlogged (tr : list Effect) : list Effect :=
  filter (fun e => is_log e = false) tr.

(** Two clients that differ only in the errors their sub-store writes
    report and in what they have logged. *)
Definition same_but_errors (c1 c2 : Client) : Prop :=
  same_writes (Store c1) (Store c2) /\
  responseWaiters c1 = responseWaiters c2 /\
  nodeHandlers c1 = nodeHandlers c2 /\
  handlerQueue c1 = handlerQueue c2 /\
  eventHandlers c1 = eventHandlers c2 /\
  appStateSyncLock c1 = appStateSyncLock c2 /\
  EmitAppStateEventsOnFullSync c1 = EmitAppStateEventsOnFullSync c2 /\
  uniqueID c1 = uniqueID c2 /\
  idCounter c1 = idCounter c2 /\
  senders c1 = senders c2 /\
  world c1 = world c2 /\
  unlogged (trace c1) = unlogged (trace c2).

(** The nodes that the dispatcher has accepted for a tag handler and that
    no handler has taken yet: in the queue, or held by a goroutine that
    waits to send. *)
Definition waiting (c : Client) : list Node := handlerQueue c ++ senders c.

(** One step of the dispatcher and of the goroutines around the queue. *)
Inductive dispatcher_step (c c' : Client) : Prop :=
| step_frame (data : list Byte.byte) : handleFrame data c = Ok tt c' -> dispatcher_step c c'
| step_sender (i : nat) : sender_step i c = Ok tt c' -> dispatcher_step c c'
| step_consumer : handlerQueueLoop_step c = Ok tt c' -> dispatcher_step c c'.

Definition same_outcome {A : Type} (V : A -> A -> Prop) (o1 o2 : Outcome A) : Prop :=
  match o1, o2 with
  | Ok a1 c1, Ok a2 c2 => V a1 a2 /\ same_but_errors c1 c2
  | Panic _, Panic _ => True
  | Blocked, Blocked => True
  | OutOfFuel, OutOfFuel => True
  | _, _ => False
  end.

(** The JID that [dispatchAppState] takes for the chat of a mutation:
    what [types.ParseJID] returns for [Index[1]], whether it returns an
    error with it or not, and the zero JID when the index has no second
    element. *)
Definition parsed_jid (mutation : appstate.Mutation) : types.JID :=
  match appstate.Index mutation !! 1 with
  | Some index1 => fst (types_ParseJID index1)
  | None => types.EmptyJID
  end.

(** The sub-store of a kind is wired in. *)
Definition wired (kind : string) (c : Client) : Prop :=
  if String.eqb kind "contact" then Contacts (Store c) <> None
  else ChatSettings (Store c) <> None.

(** The two lines that [dispatchAppState] logs, both for an error that a
    store returned. *)
Definition store_error_line (e : Effect) : Prop :=
  match e with
  | ELog l lvl format args =>
      format = "Failed to update device store after app state mutation: %v" \/
      format = "Failed to save device store after updating push name: %v"
  | _ => True
  end.

End Vocabulary.

(** ** The consumer loop, the runs of a client and a caller *)

(** The writes to the device store (sub-stores and [Save]). *)
Definition is_store_write (e : Effect) : bool :=
  match e with
  | EDeleteAppStateVersion _ | EPutMutedUntil _ _ | EPutPinned _ _
  | EPutArchived _ _ | EPutContactName _ _ _ | ESave _ => true
  | _ => false
  end.

(** The mutation that a generic [AppState] event reports. *)
Definition generic_of (e : Effect)
    : option (list string * option waProto.SyncActionValue) :=
  match e with
  | EDispatchEvent (events.AppState index action) => Some (index, action)
  | _ => None
  end.

(** The nodes handed to tag handlers, the queries sent, the collections
    whose version was read and those whose version was deleted, oldest
    first. *)
Definition invoked (tr : list Effect) : list Node :=
  omap (fun e => match e with EInvokeHandler _ n => Some n | _ => None end) tr.

Definition queries (tr : list Effect) : list infoQuery :=
  omap (fun e => match e with ESendIQ q => Some q | _ => None end) tr.

Definition versions_read (tr : list Effect) : list string :=
  omap (fun e => match e with EGetAppStateVersion n => Some n | _ => None end) tr.

Definition versions_deleted (tr : list Effect) : list string :=
  omap (fun e => match e with EDeleteAppStateVersion n => Some n | _ => None end) tr.

(** The four messages with which [FetchAppState] wraps an error. *)
Definition FetchAppState_formats : list string :=
  ["failed to reset app state %s version: %w";
   "failed to get app state %s version: %w";
   "failed to fetch app state %s patches: %w";
   "failed to decode app state %s patches: %w"].

(** Modelled from the spec: the names of the five collections (section
    4.F), the constants [appstate.WAPatchRegular] and so on, which are not
    among the sources. *)
Definition WAPatchRegular : appstate.WAPatchName := "regular".
Definition WAPatchRegularHigh : appstate.WAPatchName := "regular_high".
Definition WAPatchRegularLow : appstate.WAPatchName := "regular_low".
Definition WAPatchCriticalUnblockLow : appstate.WAPatchName := "critical_unblock_low".
Definition WAPatchCriticalBlock : appstate.WAPatchName := "critical_block".

(** The two halves of a client ID of the form "<a>.<b>-", or nothing
    for a string of another form. *)
Fixpoint split_at (sep : Ascii.ascii) (s : string) : option (string * string) :=
  match s with
  | EmptyString => None
  | String ch rest =>
      if Ascii.eqb ch sep then Some (EmptyString, rest)
      else match split_at sep rest with
           | Some (a, b) => Some (String ch a, b)
           | None => None
           end
  end.

Definition split_uniqueID (s : string) : option (string * string) :=
  match split_at (Ascii.ascii_of_nat 46) s with
  | Some (a, rest) =>
      match split_at (Ascii.ascii_of_nat 45) rest with
      | Some (b, EmptyString) => Some (a, b)
      | _ => None
      end
  | None => None
  end.

Section More.

Context `{env : Env}.

(** [handlerQueueLoop] whose [select] takes the receive case [turns]
    times before the context is done. *)
Fixpoint handlerQueueLoop (turns : nat) : M unit :=
  match turns with
  | O => ret tt
  | S turns' => handlerQueueLoop_step ;; handlerQueueLoop turns'
  end.

(** The query that [fetchAppStatePatches] sends for a collection and a
    version. *)
Definition sync_query (name : appstate.WAPatchName) (fromVersion : N) : infoQuery :=
  {| Namespace := "w:sync:app:state";
     Type_ := "set";
     To := types_ServerJID;
     IQContent :=
       [mkNode "sync" []
          (Children
             [mkNode "collection"
                [("name", AString name);
                 ("version", AUint64 fromVersion);
                 ("return_snapshot", ABool false)]
                NoContent])] |}.

(** What the sync loop of [FetchAppState] for the collection [name] may
    add to the trace: queries for that collection, decoding with MAC
    validation, store writes, log lines, and per-mutation events when
    [evts] is set. *)
Definition sync_call_ok (name : appstate.WAPatchName) (evts : bool) (e : Effect) : Prop :=
  match e with
  | EDispatchEvent evt => evts = true /\ events.per_mutation evt = true
  | ESendIQ q => exists v, q = sync_query name v
  | EDecodePatches _ validateMACs => validateMACs = true
  | EDeleteAppStateVersion _ | EGetAppStateVersion _ => False
  | EChanSend _ _ | EInvokeHandler _ _ => False
  | _ => True
  end.

(** Every node that waits for a tag handler has one in the table. *)
Definition handlers_known (c : Client) : Prop :=
  Forall (fun n => is_Some (nodeHandlers c !! Tag n)) (waiting c).

(** One step of a client: a step of the dispatcher, a call of
    [FetchAppState] that returns, or the registration of an event
    handler. *)
Inductive client_step (c c' : Client) : Prop :=
| step_dispatcher : dispatcher_step c c' -> client_step c c'
| step_FetchAppState (fuel : nat) (name : appstate.WAPatchName)
    (fullSync onlyIfNotSynced : bool) (r : option error) :
    FetchAppState fuel name fullSync onlyIfNotSynced c = Ok r c' -> client_step c c'
| step_AddEventHandler (handler : events.Event -> W -> W) :
    AddEventHandler handler c = Ok tt c' -> client_step c c'.

(** *** mdtest/main.go: the "appstate" command *)

(** [names] of the command: the five collections for "all", else the
    collection named by the first argument. *)
Definition appstate_names (args0 : string) : list appstate.WAPatchName :=
  if String.eqb args0 "all"
  then [WAPatchRegular; WAPatchRegularHigh; WAPatchRegularLow;
        WAPatchCriticalUnblockLow; WAPatchCriticalBlock]
  else [args0].

(** The range loop of the command; its value is the list of the errors
    that it writes, one line each, to the logger of the harness. *)
Fixpoint sync_names (fuel : nat) (resync : bool) (names : list appstate.WAPatchName)
    : M (list error) :=
  match names with
  | [] => ret []
  | name :: rest =>
      err <- FetchAppState fuel name resync false ;;
      logged <- sync_names fuel resync rest ;;
      ret (match err with
           | Some e => e :: logged
           | None => logged
           end)
  end.

(** The case "appstate" of [handleCmd]. *)
Definition handleCmd_appstate (fuel : nat) (args : list string) : M (list error) :=
  args0 <- index_at args 0 ;;
  let names := appstate_names args0 in
  resync <- (if (1 <? length args)%nat
             then args1 <- index_at args 1 ;; ret (String.eqb args1 "resync")
             else ret false) ;;
  sync_names fuel resync names.

End More.

(** ** A test bench

    An in-memory store, a server that answers from a script and a host that
    keeps the events it receives: test doubles for the packages that are
    not part of these files, used to run the client on concrete inputs. *)
Module Bench.

Record World : Type := {
  versions : list (string * N);
  script : list (string * bool * list appstate.Mutation);
  writes : nat;
  seen : list events.Event
}.

Definition set_versions (v : list (string * N)) (w : World) : World :=
  {| versions := v; script := script w; writes := writes w; seen := seen w |}.
Definition set_script (s : list (string * bool * list appstate.Mutation)) (w : World) : World :=
  {| versions := versions w; script := s; writes := writes w; seen := seen w |}.
Definition count_write (w : World) : World :=
  {| versions := versions w; script := script w; writes := S (writes w); seen := seen w |}.
Definition see (e : events.Event) (w : World) : World :=
  {| versions := versions w; script := script w; writes := writes w; seen := seen w ++ [e] |}.

Fixpoint version_of (name : string) (v : list (string * N)) : N :=
  match v with
  | [] => 0%N
  | (n, x) :: rest => if String.eqb n name then x else version_of name rest
  end.

Definition forget (name : string) (v : list (string * N)) : list (string * N) :=
  filter (fun p => String.eqb (fst p) name = false) v.

(** A parser in the shape of the JID grammar of section 3: no "@" gives
    a server-only JID, an empty user part is an error with the zero
    JID. *)
Definition ParseJID (s : string) : types.JID * option error :=
  match String.index 0 "@" s with
  | None => (types.mkJID "" 0 0 s false, None)
  | Some O => (types.EmptyJID, Some (ErrExternal "empty user"))
  | Some n =>
      (types.mkJID (String.substring 0 n s) 0 0
         (String.substring (S n) (String.length s - S n) s) false, None)
  end.

Definition iq_response : Node := mkNode "iq" [("id", AString "abc")] NoContent.
Definition notification : Node := mkNode "notification" [("id", AString "n1")] NoContent.

(** Three canned frames, told apart by their first byte. *)
Definition Unmarshal (data : list Byte.byte) : Node + error :=
  match data with
  | Byte.x00 :: _ => inl iq_response
  | Byte.x01 :: _ => inl notification
  | Byte.x02 :: _ => inl (mkNode "presence" [] NoContent)
  | _ => inr (ErrExternal "unknown token")
  end.

Definition ParsePatchList (resp : Node) (download : unit -> World -> World * (unit + error))
    (w : World) : World * (PatchList unit unit + error) :=
  match script w with
  | [] => (w, inr (ErrExternal "no patches"))
  | (name, more, _) :: _ =>
      (w, inl {| Name := name; HasMorePatches := more; Patches := []; Snapshot := None |})
  end.

(** Decoding takes the next reply of the script and persists the next
    version of the collection. *)
Definition DecodePatches (patches : PatchList unit unit) (state : appstate.HashState)
    (validateMACs : bool) (w : World)
    : World * (list appstate.Mutation * appstate.HashState + error) :=
  match script w with
  | [] => (w, inr (ErrExternal "mismatching LTHash"))
  | (name, _, mutations) :: rest =>
      let v := (appstate.Version state + 1)%N in
      (set_versions ((name, v) :: forget name (versions w)) (set_script rest w),
       inl (mutations, {| appstate.Version := v; appstate.Hash_ := appstate.Hash_ state |}))
  end.

#[local] Instance env : Env := {|
  W := World;
  SyncdPatch := unit;
  SyncdSnapshot := unit;
  SyncdMutations := unit;
  ExternalBlobReference := unit;
  types_ParseJID := ParseJID;
  types_ServerJID := types.mkJID "" 0 0 "s.whatsapp.net" false;
  waBinary_Unpack := fun data => inl data;
  waBinary_Unmarshal := Unmarshal;
  proto_Unmarshal := fun _ => inl tt;
  cli_Download := fun _ w => (w, inl []);
  cli_sendIQ := fun _ w => (w, inl (mkNode "iq" [("type", AString "result")] NoContent));
  appstate_ParsePatchList := ParsePatchList;
  Processor_DecodePatches := DecodePatches;
  run_nodeHandler := fun _ _ w => w
|}.

Definition store_error (fails : bool) : option error :=
  if fails then Some (ErrExternal "database is locked") else None.

Definition appStateStore : AppStateStore :=
  {| DeleteAppStateVersion := fun name w =>
       (set_versions (forget name (versions w)) w, None);
     GetAppStateVersion := fun name w => (version_of name (versions w), [], None) |}.

(** Sub-stores that count their writes and, when [fails], report an
    error for each. *)
Definition chatSettings (fails : bool) : ChatSettingsStore :=
  {| PutMutedUntil := fun _ _ w => (count_write w, store_error fails);
     PutPinned := fun _ _ w => (count_write w, store_error fails);
     PutArchived := fun _ _ w => (count_write w, store_error fails) |}.

Definition contacts (fails : bool) : ContactStore :=
  {| PutContactName := fun _ _ _ w => (count_write w, store_error fails) |}.

Definition device (wired fails : bool) : Device :=
  {| AppState := appStateStore;
     ChatSettings := if wired then Some (chatSettings fails) else None;
     Contacts := if wired then Some (contacts fails) else None;
     PushName := "";
     Save := fun _ w => (count_write w, store_error fails) |}.

Definition world0 (v : list (string * N))
    (s : list (string * bool * list appstate.Mutation)) : World :=
  {| versions := v; script := s; writes := 0; seen := [] |}.

(** The client of a run, or the given one when the run does not return. *)
Definition after {A : Type} (m : M A) (c : Client) : Client :=
  match m c with
  | Ok _ c' => c'
  | _ => c
  end.

(** A new client with one event handler, on top of the given world. *)
Definition client (wired fails emit : bool) (w : World) : Client :=
  after (AddEventHandler see)
    (NewClient (device wired fails) (Byte.x07, Byte.x2a) emit w).

Definition action (ts : Z) : option waProto.SyncActionValue :=
  Some {| waProto.Timestamp := Some ts;
          waProto.starAction := None;
          waProto.contactAction := None;
          waProto.muteAction :=
            Some {| waProto.Muted := Some true;
                    waProto.MuteEndTimestamp := Some 1700000000%Z |};
          waProto.pinAction := Some {| waProto.Pinned := Some true |};
          waProto.pushNameSetting := Some {| waProto.Name := Some "Alice" |};
          waProto.unarchiveChatsSetting := None;
          waProto.archiveChatAction := None;
          waProto.deleteMessageForMeAction := None |}.

Definition SET (index : list string) : appstate.Mutation :=
  {| appstate.Operation := waProto.SyncdMutation_SET;
     appstate.Action := action 1636000000;
     appstate.Index := index |}.

Definition REMOVE (index : list string) : appstate.Mutation :=
  {| appstate.Operation := waProto.SyncdMutation_REMOVE;
     appstate.Action := action 1636000000;
     appstate.Index := index |}.

Definition script1 : list (string * bool * list appstate.Mutation) :=
  [("regular", true,
    [SET ["mute"; "1234@s.whatsapp.net"]; SET ["star"; "chat"; "msg"];
     SET ["setting_pushName"]]);
   ("regular", false, [SET ["pin_v1"; "x@y"]; REMOVE ["archive"; "x@y"]])].

(** A collection that was synced up to version 5, and one never synced. *)
Definition synced : World := world0 [("regular", 5%N)] script1.
Definition unsynced : World := world0 [] script1.

(** A client with a caller waiting for the reply to the IQ "abc". *)
Definition waiting_for_abc : Client :=
  set_responseWaiters (insert "abc" 7%N) (client true false false (world0 [] [])).

(** A client whose consumer is stalled behind a full queue. *)
Definition full_queue : Client :=
  set_handlerQueue (fun _ => replicate 2048 notification)
    (client true false false (world0 [] [])).

Definition is_overflow_warning (e : Effect) : bool :=
  match e with
  | ELog Log LvlWarn format [] =>
      String.eqb format "Handler queue is full, message ordering is no longer guaranteed"
  | _ => false
  end.

(** [n] times the same frame. *)
Fixpoint feed (n : nat) (data : list Byte.byte) (c : Client) : Client :=
  match n with
  | O => c
  | S n' => feed n' data (after (handleFrame data) c)
  end.

End Bench.

(** ** A second bench

    A codec that knows the end of the stream and a frame that does not
    unpack, and the frames and clients of some runs. *)
Module Wire.

Definition Unpack (data : list Byte.byte) : list Byte.byte + error :=
  match data with
  | [] => inr (ErrExternal "unexpected EOF")
  | _ => inl data
  end.

Definition stream_end : Node := mkNode "xmlstreamend" [("id", AString "abc")] NoContent.

Definition Unmarshal (data : list Byte.byte) : Node + error :=
  match data with
  | Byte.xff :: _ => inl stream_end
  | _ => Bench.Unmarshal data
  end.

#[local] Instance env : Env := {|
  W := Bench.World;
  SyncdPatch := unit;
  SyncdSnapshot := unit;
  SyncdMutations := unit;
  ExternalBlobReference := unit;
  types_ParseJID := Bench.ParseJID;
  types_ServerJID := types.mkJID "" 0 0 "s.whatsapp.net" false;
  waBinary_Unpack := Unpack;
  waBinary_Unmarshal := Unmarshal;
  proto_Unmarshal := fun _ => inl tt;
  cli_Download := fun _ w => (w, inl []);
  cli_sendIQ := fun _ w => (w, inr (ErrExternal "not connected"));
  appstate_ParsePatchList := Bench.ParsePatchList;
  Processor_DecodePatches := Bench.DecodePatches;
  run_nodeHandler := fun _ _ w => w
|}.

Definition device : Device :=
  {| AppState :=
       {| DeleteAppStateVersion := fun _ w => (w, None);
          GetAppStateVersion := fun name w => (Bench.version_of name (Bench.versions w), [], None) |};
     ChatSettings := None;
     Contacts := None;
     PushName := "";
     Save := fun _ w => (w, None) |}.

(** A client with a caller waiting for the reply to the IQ "abc". *)
Definition client : Client :=
  set_responseWaiters (insert "abc" 7%N)
    (NewClient device (Byte.x00, Byte.x01) false (Bench.world0 [] [])).

End Wire.

Module Runs.

#[local] Existing Instance Bench.env.

(** A client that nobody waits on, with a server that has no patches. *)
Definition fresh : Client := Bench.client true false false (Bench.world0 [] []).

(** A notification and then an IQ. *)
Definition frames : list (list Byte.byte) := [[Byte.x01]; [Byte.x00]].

Definition queued : Client := Bench.after (for_range frames handleFrame) fresh.

Definition started : Client :=
  NewClient (Bench.device true false) (Byte.x07, Byte.x2a) false (Bench.world0 [] []).

Definition arrived : Client := Bench.after (handleFrame [Byte.x01]) started.

Definition batch : list appstate.Mutation :=
  [Bench.SET ["mute"; "1234@s.whatsapp.net"]; Bench.REMOVE ["archive"; "x@y"];
   Bench.SET ["setting_pushName"]].

End Runs.

(** ** A parser that fills the JID as it reads

    For "1234.x:0@s.whatsapp.net", whose agent is not a number, the parser
    of this bench gives the user and the server that it has read so far
    along with its error. *)
Module Partial.

Definition ParseJID (s : string) : types.JID * option error :=
  if String.eqb s "1234.x:0@s.whatsapp.net"
  then (types.mkJID "1234" 0 0 "s.whatsapp.net" true,
        Some (ErrExternal "failed to parse agent from JID"))
  else Bench.ParseJID s.

#[local] Instance env : Env := {|
  W := Bench.World;
  SyncdPatch := unit;
  SyncdSnapshot := unit;
  SyncdMutations := unit;
  ExternalBlobReference := unit;
  types_ParseJID := ParseJID;
  types_ServerJID := types.mkJID "" 0 0 "s.whatsapp.net" false;
  waBinary_Unpack := fun data => inl data;
  waBinary_Unmarshal := Bench.Unmarshal;
  proto_Unmarshal := fun _ => inl tt;
  cli_Download := fun _ w => (w, inl []);
  cli_sendIQ := fun _ w => (w, inl (mkNode "iq" [("type", AString "result")] NoContent));
  appstate_ParsePatchList := Bench.ParsePatchList;
  Processor_DecodePatches := Bench.DecodePatches;
  run_nodeHandler := fun _ _ w => w
|}.

(** A device with chat settings that count their writes. *)
Definition device : Device :=
  {| AppState :=
       {| DeleteAppStateVersion := fun name w =>
            (Bench.set_versions (Bench.forget name (Bench.versions w)) w, None);
          GetAppStateVersion := fun name w =>
            (Bench.version_of name (Bench.versions w), [], None) |};
     ChatSettings :=
       Some {| PutMutedUntil := fun _ _ w => (Bench.count_write w, None);
               PutPinned := fun _ _ w => (Bench.count_write w, None);
               PutArchived := fun _ _ w => (Bench.count_write w, None) |};
     Contacts := None;
     PushName := "";
     Save := fun _ w => (Bench.count_write w, None) |}.

Definition client : Client :=
  set_eventHandlers (fun _ => [Bench.see])
    (NewClient device (Byte.x07, Byte.x2a) false (Bench.world0 [] [])).

(** The JID that the parser returns with its error. *)
Definition partial_jid : types.JID := types.mkJID "1234" 0 0 "s.whatsapp.net" true.

(** A mute mutation whose chat does not parse. *)
Definition mute : appstate.Mutation := Bench.SET ["mute"; "1234.x:0@s.whatsapp.net"].

End Partial.

(** ** Symbolic execution of the methods *)

(** Destructs the innermost scrutinee on which the goal is stuck. *)
Ltac destruct_inner :=
  match goal with
  | |- context [match ?x with _ => _ end] =>
      lazymatch x with
      | context [match _ with _ => _ end] => fail
      | _ => destruct x eqn:?
      end
  end.

Ltac unfold_methods :=
  unfold ChatSettings_PutMutedUntil, ChatSettings_PutPinned, ChatSettings_PutArchived,
    ChatSettings_call, Contacts_PutContactName, Store_Save, sendIQ,
    appStateProc_DecodePatches, AppState_DeleteAppStateVersion,
    AppState_GetAppStateVersion, Lock, Unlock, defer, go_send, handlerQueue_try_send,
    logf, bind, ret, gets, modify, call, dispatchEvent, panic, index_at.

Ltac run := unfold_methods; repeat (simpl; try destruct_inner).

(** Closes [trace c' = trace c ++ ?tr] for a [c'] built from [c]. *)
Ltac trace_eq :=
  simpl; rewrite <- ?app_assoc; simpl;
  first [reflexivity | symmetry; apply app_nil_r].

Section Proofs.

Context `{env : Env}.

#[local] Arguments Nat.ltb : simpl never.

(** *** dispatchAppState *)

Lemma grows_intro allowed c c' tr :
  same_frame c c' -> trace c' = trace c ++ tr -> Forall allowed tr -> grows allowed c c'.
Proof. intros Hf Ht Ha. split; [exact Hf | exists tr; auto]. Qed.

Lemma same_frame_refl c : same_frame c c.
Proof. repeat split. Qed.

Lemma same_frame_trans c1 c2 c3 : same_frame c1 c2 -> same_frame c2 c3 -> same_frame c1 c3.
Proof. unfold same_frame. intuition congruence. Qed.

Lemma grows_refl allowed c : grows allowed c c.
Proof. apply grows_intro with (tr := []); auto using same_frame_refl, app_nil_r. Qed.

Lemma grows_trans allowed c1 c2 c3 :
  grows allowed c1 c2 -> grows allowed c2 c3 -> grows allowed c1 c3.
Proof.
  intros [Hf1 (t1 & E1 & A1)] [Hf2 (t2 & E2 & A2)].
  apply grows_intro with (tr := t1 ++ t2).
  - eauto using same_frame_trans.
  - rewrite E2, E1. symmetry. apply app_assoc.
  - apply Forall_app; auto.
Qed.

(** The weakest precondition of a sequence. *)
Lemma wpg_bind {A B : Type} d (m : M A) (k : A -> M B) Q c :
  wpg d m (fun a c' => wpg d (k a) Q c') c -> wpg d (bind m k) Q c.
Proof. unfold wpg, bind. destruct (m c); auto. Qed.

Lemma wpg_mono {A : Type} d (m : M A) (Q Q' : A -> Client -> Prop) c :
  (forall a c', Q a c' -> Q' a c') -> wpg d m Q c -> wpg d m Q' c.
Proof. unfold wpg. destruct (m c); auto. Qed.

Lemma wpg_ok {A : Type} d (m : M A) Q c a c' :
  wpg d m Q c -> m c = Ok a c' -> Q a c'.
Proof. unfold wpg. intros H E. rewrite E in H. exact H. Qed.

(** A mutation with an empty index makes [dispatchAppState] panic at
    [mutation.Index[0]]. *)
Lemma dispatchAppState_empty_index_panics m evts c :
  appstate.Operation m = waProto.SyncdMutation_SET ->
  appstate.Index m = [] ->
  dispatchAppState m evts c = Panic "index out of range".
Proof.
  intros Hop Hidx. unfold dispatchAppState. rewrite Hop, Hidx. destruct evts; reflexivity.
Qed.

(** Whatever [dispatchAppState] does when it returns: it keeps the frame,
    and dispatches only per-mutation events, and those only when asked. *)
Lemma dispatchAppState_grows m evts c :
  wpg True (dispatchAppState m evts) (fun _ c' => grows (event_ok evts) c c') c.
Proof.
  unfold wpg, dispatchAppState. run; auto.
  all: eapply grows_intro; [repeat split | trace_eq | repeat constructor].
Qed.

(** C7: a mutation whose operation is not SET leaves the client as it is:
    no event, no store write, no change of [PushName] or of any other
    field. *)
Theorem dispatchAppState_non_SET_is_noop m evts c :
  appstate.Operation m <> waProto.SyncdMutation_SET ->
  dispatchAppState m evts c = Ok tt c.
Proof.
  intros Hop. unfold dispatchAppState.
  destruct (appstate.Operation m); [contradiction | reflexivity].
Qed.

(** C2, as amended: a SET mutation of kind "star" or "deleteMessageForMe"
    whose index has fewer than five elements returns without panic right
    after the generic [AppState] event, which is dispatched when event
    dispatch is enabled: no typed event, no store write, no log line. *)
Theorem dispatchAppState_short_index m evts c k :
  appstate.Operation m = waProto.SyncdMutation_SET ->
  appstate.Index m !! 0 = Some k ->
  k = "star" \/ k = "deleteMessageForMe" ->
  length (appstate.Index m) < 5 ->
  dispatchAppState m evts c =
    Ok tt (if evts
           then dispatched (events.AppState (appstate.Index m) (appstate.Action m)) c
           else c).
Proof.
  intros Hop Hk Hkind Hlen. apply Nat.ltb_lt in Hlen.
  unfold dispatchAppState. rewrite Hop. simpl.
  destruct (appstate.Index m) as [|k' rest] eqn:Hidx; [discriminate|].
  simpl in Hk. injection Hk as ->.
  destruct rest as [|index1 rest]; unfold Nat.ltb in *; simpl in Hlen;
    destruct Hkind as [-> | ->], evts; unfold_methods; simpl;
    rewrite ?Hlen; reflexivity.
Qed.

(** C6: with the sub-store of its kind not wired in, a SET mutation of
    kind "mute", "pin_v1", "archive" or "contact" returns without panic
    and without a store write or log line; when event dispatch is enabled
    the generic event and the typed event of its kind are dispatched. *)
Theorem dispatchAppState_nil_substore m evts c k :
  appstate.Operation m = waProto.SyncdMutation_SET ->
  appstate.Index m !! 0 = Some k ->
  ((k = "mute" \/ k = "pin_v1" \/ k = "archive") /\ ChatSettings (Store c) = None) \/
  (k = "contact" /\ Contacts (Store c) = None) ->
  exists evt,
    typed_kind evt = Some k /\
    dispatchAppState m evts c =
      Ok tt (if evts
             then dispatched evt
                    (dispatched (events.AppState (appstate.Index m) (appstate.Action m)) c)
             else c).
Proof.
  intros Hop Hk Hnil.
  unfold dispatchAppState. rewrite Hop. simpl.
  destruct (appstate.Index m) as [|k' rest] eqn:Hidx; [discriminate|].
  simpl in Hk. injection Hk as ->.
  destruct rest as [|index1 rest]; unfold Nat.ltb;
    destruct Hnil as [[[-> | [-> | ->]] Hnil] | [-> Hnil]], evts;
    unfold_methods; simpl; rewrite ?Hnil; simpl;
    first
      [ eexists; (split; [|reflexivity]); reflexivity
      | exists (events.Mute types.EmptyJID ZeroTime None); split; reflexivity
      | exists (events.Pin types.EmptyJID ZeroTime None); split; reflexivity
      | exists (events.Archive types.EmptyJID ZeroTime None); split; reflexivity
      | exists (events.Contact types.EmptyJID ZeroTime None); split; reflexivity ].
Qed.

(** C10, as amended: on a mutation with a non-empty index
    [dispatchAppState] returns (no index out of range, no call through a
    nil sub-store), whatever [types.ParseJID] does with [Index[1]]: its
    error is dropped, the only log lines are those for an error of a
    store, and every store write and typed event carries as the chat the
    JID that the parser returned, with or without an error, which for a
    SET mutation of kind "mute", "pin_v1", "archive" or "contact" is the JID
    of the typed event, dispatched last when events are on, and of the
    store write, made when the sub-store is wired in. *)
Theorem dispatchAppState_total m evts c :
  appstate.Index m <> [] ->
  exists c' tr,
    dispatchAppState m evts c = Ok tt c' /\
    trace c' = trace c ++ tr /\
    Forall store_error_line tr /\
    Forall (fun e => forall jid, chat_jid e = Some jid -> jid = parsed_jid m) tr /\
    forall kind,
      appstate.Operation m = waProto.SyncdMutation_SET ->
      appstate.Index m !! 0 = Some kind ->
      kind ∈ ["mute"; "pin_v1"; "archive"; "contact"] ->
      (evts = true ->
       exists evt,
         last tr = Some (EDispatchEvent evt) /\ typed_kind evt = Some kind /\
         chat_jid (EDispatchEvent evt) = Some (parsed_jid m)) /\
      (wired kind c ->
       exists e,
         e ∈ tr /\ is_store_write e = true /\ chat_jid e = Some (parsed_jid m)).
Proof.
  intros Hne.
  cut (wpg False (dispatchAppState m evts)
         (fun _ c' => exists tr, trace c' = trace c ++ tr /\
            Forall store_error_line tr /\
            Forall (fun e => forall jid, chat_jid e = Some jid -> jid = parsed_jid m) tr /\
            forall kind,
              appstate.Operation m = waProto.SyncdMutation_SET ->
              appstate.Index m !! 0 = Some kind ->
              kind ∈ ["mute"; "pin_v1"; "archive"; "contact"] ->
              (evts = true ->
               exists evt,
                 last tr = Some (EDispatchEvent evt) /\ typed_kind evt = Some kind /\
                 chat_jid (EDispatchEvent evt) = Some (parsed_jid m)) /\
              (wired kind c ->
               exists e,
                 e ∈ tr /\ is_store_write e = true /\
                 chat_jid e = Some (parsed_jid m))) c).
  { unfold wpg. destruct (dispatchAppState m evts c) as [[] c'| | |]; try contradiction.
    intros (tr & H). exists c', tr. auto. }
  unfold wpg, dispatchAppState, parsed_jid, wired.
  destruct (appstate.Index m) as [|k rest] eqn:Hidx; [contradiction|].
  run; try discriminate.
  all: try match goal with H : bool_decide _ = true |- _ =>
         apply bool_decide_eq_true in H; contradiction end.
  all: try match goal with H : (_ <? 5)%nat = false, H' : _ !! _ = None |- _ =>
         apply Nat.ltb_ge in H; apply lookup_ge_None in H'; simpl in *; lia end.
  all: try match goal with H : (1 <? _)%nat = true, H' : _ !! 0 = None |- _ =>
         apply Nat.ltb_lt in H; apply lookup_ge_None in H'; simpl in *; lia end.
  all: try (exfalso; match goal with H : (1 <? _)%nat = false, H' : _ !! 0 = Some _ |- _ =>
         apply Nat.ltb_ge in H; apply lookup_lt_Some in H'; simpl in *; lia end).
  all: eexists; (split; [trace_eq|]).
  all: split;
    [repeat (apply List.Forall_cons; [simpl; auto|]); apply List.Forall_nil|].
  all: split;
    [repeat (apply List.Forall_cons; [simpl; intros; simplify_eq; reflexivity|]);
     apply List.Forall_nil|].
  all: intros kind Hop Hk Hkind; simpl in Hk; simplify_eq.
  all: destruct (appstate.Operation m); simpl in *; try discriminate.
  all: repeat match goal with
    | H : (_ =? _) = true |- _ => apply String.eqb_eq in H; subst
    end.
  all: try solve [exfalso; rewrite !elem_of_cons, elem_of_nil in Hkind;
         destruct Hkind as [?|[?|[?|[?|[]]]]]; simplify_eq; simpl in *; discriminate].
  all: split.
  all: try solve [intros ?; try discriminate; eexists; split; [reflexivity|split; reflexivity]].
  all: try solve [intros Hw; exfalso; apply Hw; reflexivity].
  all: try solve
    [ intros _; eexists; split; [apply list_elem_of_here|split; reflexivity]
    | intros _; eexists;
      split; [apply list_elem_of_further, list_elem_of_here|split; reflexivity] ].
  all: try (intros Hw; simpl in Hw;
    match goal with H : bool_decide _ = false |- _ =>
      apply bool_decide_eq_false in H; contradiction end).
  all: intros Hev; discriminate Hev.
Qed.

(** *** FetchAppState *)

#[local] Arguments N.eqb : simpl never.

Lemma events_of_event_ok evts (tr : list Effect) :
  Forall (event_ok evts) tr ->
  Forall (fun e => events.per_mutation e = true) (events_of tr) /\
  (evts = false -> events_of tr = []).
Proof.
  induction 1 as [|e tr He _ [IH1 IH2]]; [split; [constructor | reflexivity]|].
  destruct e; simpl in *; auto.
  destruct He as [-> Hpm]. split; [constructor; auto | discriminate].
Qed.

Lemma dispatch_mutations_grows (ms : list appstate.Mutation) fullSync c :
  wpg True (for_range ms (dispatch_mutation fullSync))
    (fun _ c' => grows (event_ok (negb fullSync || EmitAppStateEventsOnFullSync c)) c c') c.
Proof.
  revert c. induction ms as [|m ms IH]; intros c; simpl.
  - apply grows_refl.
  - apply wpg_bind. unfold dispatch_mutation at 1. unfold bind at 1, gets at 1.
    eapply wpg_mono; [|apply dispatchAppState_grows]. intros [] c1 H1. simpl in H1.
    eapply wpg_mono; [|apply IH]. intros [] c2 H2. simpl in H2.
    assert (E : EmitAppStateEventsOnFullSync c1 = EmitAppStateEventsOnFullSync c)
      by apply H1.
    rewrite E in H2. eapply grows_trans; eauto.
Qed.

(** A turn of the sync loop that returns has sent its IQ first, and has
    dispatched at most per-mutation events, none when they are off. *)
Lemma FetchAppState_loop_grows fuel name fullSync state c :
  wpg True (FetchAppState_loop fuel name fullSync state)
    (fun _ c' =>
       same_frame c c' /\
       exists q rest,
         trace c' = trace c ++ ESendIQ q :: rest /\
         Namespace q = "w:sync:app:state" /\
         Forall (event_ok (negb fullSync || EmitAppStateEventsOnFullSync c)) rest) c.
Proof.
  revert state c. induction fuel as [|fuel IH]; intros state c; [exact I|].
  unfold wpg. simpl. unfold fetchAppStatePatches. run; auto.
  all: repeat match goal with
    | H : for_range _ _ ?c0 = Ok _ _ |- _ =>
        apply (wpg_ok _ _ _ _ _ _ (dispatch_mutations_grows _ _ c0)) in H;
        simpl in H; destruct H as [? (? & ? & ?)]
    | H : FetchAppState_loop _ _ _ _ ?c0 = Ok _ _ |- _ =>
        apply (wpg_ok _ _ _ _ _ _ (IH _ c0)) in H;
        simpl in H; destruct H as [? (? & ? & ? & ? & ?)]
    end.
  all: split;
    [ repeat match goal with H : same_frame _ _ |- _ =>
        destruct H as (?&?&?&?&?&?&?&?&?&?&?) end;
      simpl in *; repeat split; congruence | ].
  all: repeat match goal with H : same_frame _ _ |- _ =>
         destruct H as (?&?&?&?&?&?&?&?&?&?&?) end; simpl in *.
  all: repeat match goal with H : EmitAppStateEventsOnFullSync _ = _ |- _ =>
         rewrite H in *; clear H end.
  all: repeat match goal with H : trace _ = _ |- _ => rewrite H; clear H end.
  all: eexists; eexists; split; [trace_eq | split; [reflexivity|]].
  all: repeat first [apply Forall_app; split | constructor | assumption | exact I].
Qed.

Lemma FetchAppState_sync_spec fuel name fullSync state c :
  wpg True (FetchAppState_sync fuel name fullSync state)
    (fun r c' =>
       r = None ->
       same_frame c c' /\
       exists q rest,
         trace c' =
           trace c ++ ESendIQ q :: rest ++
             (if fullSync then [EDispatchEvent (events.AppStateSyncComplete name)] else []) /\
         Namespace q = "w:sync:app:state" /\
         Forall (event_ok (negb fullSync || EmitAppStateEventsOnFullSync c)) rest) c.
Proof.
  unfold wpg, FetchAppState_sync. run; auto; try discriminate; intros _.
  all: match goal with H : FetchAppState_loop _ _ _ _ ?c0 = Ok _ _ |- _ =>
         apply (wpg_ok _ _ _ _ _ _ (FetchAppState_loop_grows _ _ _ _ c0)) in H;
         simpl in H; destruct H as [Hf (q & rest & Ht & Hq & Hr)] end.
  all: split;
    [ destruct Hf as (?&?&?&?&?&?&?&?&?&?&?); repeat split; simpl in *; congruence | ].
  all: exists q, rest; simpl; rewrite Ht, <- ?app_assoc; simpl;
    rewrite ?app_nil_r; auto.
Qed.

(** C1: a call with [fullSync = true] that returns nil while
    [EmitAppStateEventsOnFullSync] is off has dispatched no event for any
    mutation, and its last call is the dispatch of the one
    [AppStateSyncComplete].  With [onlyIfNotSynced] set this needs the
    store to read version 0 after the delete. *)
Theorem FetchAppState_full_sync_silence fuel name onlyIfNotSynced c c' :
  EmitAppStateEventsOnFullSync c = false ->
  (onlyIfNotSynced = true -> delete_resets (AppState (Store c)) name (world c)) ->
  FetchAppState fuel name true onlyIfNotSynced c = Ok None c' ->
  exists tr,
    trace c' = trace c ++ tr ++ [EDispatchEvent (events.AppStateSyncComplete name)] /\
    events_of tr = [].
Proof.
  intros Hemit Hstore. unfold FetchAppState. run; try discriminate.
  all: intros E; simplify_eq; simpl.
  all: try match goal with H : FetchAppState_sync _ _ _ _ ?c0 = Ok _ _ |- _ =>
         apply (wpg_ok _ _ _ _ _ _ (FetchAppState_sync_spec _ _ _ _ c0)) in H;
         [|reflexivity]; simpl in H; destruct H as [Hf (q & rest & Ht & Hq & Hr)] end.
  all: try (rewrite Hemit in Hr; simpl in Hr; apply events_of_event_ok in Hr as [_ Hr];
            rewrite Ht; simpl; rewrite <- ?app_assoc; simpl;
            exists (EDeleteAppStateVersion name :: EGetAppStateVersion name ::
                    ESendIQ q :: rest);
            split; [reflexivity | simpl; apply Hr; reflexivity]).
  - (* the store reads a version other than 0 right after the delete *)
    match goal with
    | Hd : DeleteAppStateVersion _ _ _ = _, Hg : GetAppStateVersion _ _ _ = _,
      Hv : (_ =? 0)%N = false |- _ =>
        apply N.eqb_neq in Hv; exfalso; apply Hv;
        eapply (Hstore eq_refl); [exact Hd | exact Hg]
    end.
Qed.

(** C8: a call that reads version 0 for the collection, before or after
    the delete of a full sync, and returns nil has not taken the early
    return (its IQ is sent), has dispatched per-mutation events only if
    [EmitAppStateEventsOnFullSync] is set, and ends with the dispatch of
    [AppStateSyncComplete], whatever [fullSync] and [onlyIfNotSynced]
    were. *)
Theorem FetchAppState_version_0_is_full_sync fuel name fullSync onlyIfNotSynced c c' :
  version_read name fullSync c = 0%N ->
  FetchAppState fuel name fullSync onlyIfNotSynced c = Ok None c' ->
  exists tr q rest,
    trace c' =
      trace c ++ tr ++ ESendIQ q :: rest ++
        [EDispatchEvent (events.AppStateSyncComplete name)] /\
    events_of tr = [] /\
    Namespace q = "w:sync:app:state" /\
    Forall (event_ok (EmitAppStateEventsOnFullSync c)) rest.
Proof.
  unfold version_read. intros Hv. unfold FetchAppState. run; try discriminate.
  all: intros E; simplify_eq; simpl.
  all: simpl in Hv;
    try match goal with H : GetAppStateVersion _ _ _ = _ |- _ =>
      rewrite H in Hv; simpl in Hv end.
  all: try match goal with H : (_ =? 0)%N = false |- _ =>
         apply N.eqb_neq in H; contradiction end.
  all: match goal with H : FetchAppState_sync _ _ _ _ ?c0 = Ok _ _ |- _ =>
         apply (wpg_ok _ _ _ _ _ _ (FetchAppState_sync_spec _ _ _ _ c0)) in H;
         [|reflexivity]; simpl in H; destruct H as [Hf (q & rest & Ht & Hq & Hr)] end.
  all: rewrite Ht; simpl; rewrite <- ?app_assoc; simpl.
  all: first [ exists [EDeleteAppStateVersion name; EGetAppStateVersion name], q, rest;
               split; [reflexivity|]
             | exists [EGetAppStateVersion name], q, rest; split; [reflexivity|] ].
  all: split; [reflexivity | split; [exact Hq | exact Hr]].
Qed.

(** C9: with [fullSync = false], [onlyIfNotSynced = true] and a stored
    version other than 0, the call returns nil for any fuel; its only call
    is the read of the version: no IQ, no decoding, no event, and the
    outside world, with the persisted version and hash, is as before. *)
Theorem FetchAppState_onlyIfNotSynced_returns fuel name c v h :
  appStateSyncLock c = false ->
  GetAppStateVersion (AppState (Store c)) name (world c) = (v, h, None) ->
  v <> 0%N ->
  FetchAppState fuel name false true c = Ok None (record (EGetAppStateVersion name) c) /\
  GetAppStateVersion (AppState (Store c)) name
    (world (record (EGetAppStateVersion name) c)) = (v, h, None).
Proof.
  intros Hlock Hget Hv. apply N.eqb_neq in Hv. split; [|exact Hget].
  unfold FetchAppState. unfold_methods. simpl. rewrite Hlock. simpl.
  rewrite Hget, Hv. simpl.
  destruct c; simpl in *; subst; reflexivity.
Qed.


(** *** The dispatcher *)

Lemma receiveResponse_frame node c b c1 :
  receiveResponse node c = Ok b c1 ->
  handlerQueue c1 = handlerQueue c /\ senders c1 = senders c /\
  nodeHandlers c1 = nodeHandlers c /\ world c1 = world c /\
  (b = false -> c1 = c) /\
  (b = true -> exists waiter, trace c1 = trace c ++ [EChanSend waiter node]).
Proof.
  unfold receiveResponse. run; intros E; simplify_eq; simpl.
  all: repeat split; intros; try discriminate; eauto.
Qed.

Lemma NewClient_nodeHandlers_keys tag h :
  NewClient_nodeHandlers !! tag = Some h ->
  tag ∈ ["message"; "receipt"; "notification"; "success"; "stream:error"; "iq"].
Proof.
  unfold NewClient_nodeHandlers. intros H.
  repeat (apply lookup_insert_Some in H as [[<- _] | [_ H]];
          [repeat first [apply list_elem_of_here | apply list_elem_of_further]|]).
  rewrite lookup_empty in H. discriminate.
Qed.

(** C3: when [receiveResponse] returns true for the node of a frame,
    [handleFrame] ends there: the queue and the waiting senders are as
    before, and its only calls are the receive log line and the delivery
    to the waiter; no tag handler is invoked. *)
Theorem handleFrame_correlated_not_queued data decompressed node c c1 :
  waBinary_Unpack data = inl decompressed ->
  waBinary_Unmarshal decompressed = inl node ->
  Tag node <> "xmlstreamend" ->
  receiveResponse node (record (ELog recvLog LvlDebug "%s" [LXML node]) c) = Ok true c1 ->
  handleFrame data c = Ok tt c1 /\
  handlerQueue c1 = handlerQueue c /\
  senders c1 = senders c /\
  exists waiter,
    trace c1 = trace c ++ [ELog recvLog LvlDebug "%s" [LXML node]; EChanSend waiter node].
Proof.
  intros Hunpack Hnode Htag Hresp.
  apply String.eqb_neq in Htag.
  destruct (receiveResponse_frame _ _ _ _ Hresp) as (Hq & Hs & _ & _ & _ & Ht).
  destruct (Ht eq_refl) as [waiter Htr].
  repeat split; [| exact Hq | exact Hs | ].
  - unfold handleFrame. rewrite Hunpack, Hnode.
    unfold bind at 1, logf at 1, modify at 1. rewrite Htag.
    unfold bind at 1. rewrite Hresp. reflexivity.
  - exists waiter. rewrite Htr. simpl. rewrite <- app_assoc. reflexivity.
Qed.

(** C4, as amended: the queue holds 2048 nodes, and a node whose tag is
    in the table of [NewClient] and which [receiveResponse] does not take
    is either appended to the queue at once, when the queue has room, or,
    when it is full, handed to a new waiting sender after the warning. *)
Theorem handleFrame_uncorrelated_not_dropped data decompressed node h c c1 :
  waBinary_Unpack data = inl decompressed ->
  waBinary_Unmarshal decompressed = inl node ->
  nodeHandlers c = NewClient_nodeHandlers ->
  nodeHandlers c !! Tag node = Some h ->
  receiveResponse node (record (ELog recvLog LvlDebug "%s" [LXML node]) c) = Ok false c1 ->
  handlerQueueSize = 2048 /\
  exists c',
    handleFrame data c = Ok tt c' /\
    node ∈ waiting c' /\
    ((length (handlerQueue c) < 2048 /\
      handlerQueue c' = handlerQueue c ++ [node] /\
      senders c' = senders c /\
      trace c' = trace c ++ [ELog recvLog LvlDebug "%s" [LXML node]]) \/
     (2048 <= length (handlerQueue c) /\
      handlerQueue c' = handlerQueue c /\
      senders c' = senders c ++ [node] /\
      trace c' =
        trace c ++
          [ELog recvLog LvlDebug "%s" [LXML node];
           ELog Log LvlWarn
             "Handler queue is full, message ordering is no longer guaranteed" []])).
Proof.
  intros Hunpack Hnode Htable Hh Hresp. split; [reflexivity|].
  assert (c1 = record (ELog recvLog LvlDebug "%s" [LXML node]) c) as ->
    by (apply (receiveResponse_frame _ _ _ _ Hresp); reflexivity).
  assert (Htag : String.eqb (Tag node) "xmlstreamend" = false).
  { apply String.eqb_neq. intros E.
    assert (Hkey := Hh). rewrite Htable, E in Hkey.
    apply NewClient_nodeHandlers_keys in Hkey.
    repeat (apply elem_of_cons in Hkey as [Hkey | Hkey]; [discriminate|]).
    apply elem_of_nil in Hkey. exact Hkey. }
  unfold handleFrame. rewrite Hunpack, Hnode.
  unfold bind at 1, logf at 1, modify at 1. rewrite Htag.
  unfold bind at 1. rewrite Hresp.
  unfold bind at 1, gets at 1. cbn [nodeHandlers record]. rewrite Hh.
  unfold bind at 1, handlerQueue_try_send. cbn [handlerQueue record].
  change handlerQueueSize with 2048.
  destruct (length (handlerQueue c) <? 2048)%nat eqn:Hroom.
  - apply Nat.ltb_lt in Hroom. eexists. split; [reflexivity|]. unfold waiting. simpl.
    split; [apply elem_of_app; left; apply elem_of_app; right; apply list_elem_of_here|].
    left. auto.
  - apply Nat.ltb_ge in Hroom. eexists. split; [reflexivity|]. unfold waiting. simpl.
    split; [apply elem_of_app; right; apply elem_of_app; right; apply list_elem_of_here|].
    right. repeat split; auto.
    rewrite <- app_assoc. reflexivity.
Qed.


(** A waiting sender ends only by putting its node into the queue, which
    needs room; while the queue is full it stays blocked. *)
Lemma sender_step_enqueues i c c' :
  sender_step i c = Ok tt c' ->
  exists node,
    senders c !! i = Some node /\
    length (handlerQueue c) < handlerQueueSize /\
    handlerQueue c' = handlerQueue c ++ [node] /\
    senders c' = take i (senders c) ++ drop (S i) (senders c) /\
    trace c' = trace c.
Proof.
  unfold sender_step. destruct (senders c !! i) as [node|] eqn:Hi; [|discriminate].
  destruct (length (handlerQueue c) <? handlerQueueSize)%nat eqn:Hroom; [|discriminate].
  intros [= <-]. exists node. apply Nat.ltb_lt in Hroom. auto.
Qed.

Lemma sender_step_blocks_when_full i c :
  handlerQueueSize <= length (handlerQueue c) -> sender_step i c = Blocked.
Proof.
  intros Hfull. apply Nat.ltb_ge in Hfull. unfold sender_step.
  destruct (senders c !! i); [rewrite Hfull|]; reflexivity.
Qed.

(** What [handleFrame] does to the queue and to the senders: it appends
    at most the node of the frame, and invokes no handler. *)
Lemma handleFrame_appends data c c' :
  handleFrame data c = Ok tt c' ->
  exists q s tr,
    handlerQueue c' = handlerQueue c ++ q /\ senders c' = senders c ++ s /\
    trace c' = trace c ++ tr /\
    Forall (fun e => forall h n, e <> EInvokeHandler h n) tr.
Proof.
  unfold handleFrame, receiveResponse. run; intros E; simplify_eq; simpl.
  all: do 3 eexists;
    (split; [first [reflexivity | symmetry; apply app_nil_r]|]);
    (split; [first [reflexivity | symmetry; apply app_nil_r]|]);
    (split; [trace_eq|]); repeat constructor; discriminate.
Qed.

(** No step of the dispatcher drops a waiting node: it keeps waiting, or
    the step is the call of a tag handler with it. *)
Lemma dispatcher_step_no_drop c c' node :
  dispatcher_step c c' -> node ∈ waiting c ->
  node ∈ waiting c' \/ exists h, trace c' = trace c ++ [EInvokeHandler h node].
Proof.
  unfold waiting. intros [data H | i H | H] Hin.
  - left. apply handleFrame_appends in H as (q & s & tr & -> & -> & _).
    rewrite !elem_of_app in *. tauto.
  - left. apply sender_step_enqueues in H as (n & Hi & _ & -> & -> & _).
    rewrite <- (take_drop_middle _ _ _ Hi) in Hin.
    rewrite !elem_of_app, ?elem_of_cons in *. tauto.
  - unfold handlerQueueLoop_step in H.
    destruct (handlerQueue c) as [|n rest] eqn:Hq; [discriminate|].
    destruct (nodeHandlers c !! Tag n) as [h|]; [|discriminate].
    injection H as <-. simpl.
    rewrite elem_of_app, elem_of_cons in Hin. rewrite elem_of_app.
    destruct Hin as [[-> | Hin] | Hin]; eauto.
Qed.

(** A tag handler is invoked only by the consumer, and only for the node
    at the head of the queue. *)
Lemma dispatcher_step_invokes_head c c' tr h node :
  dispatcher_step c c' -> trace c' = trace c ++ tr -> EInvokeHandler h node ∈ tr ->
  exists rest, handlerQueue c = node :: rest.
Proof.
  intros [data H | i H | H] Htr Hin.
  - apply handleFrame_appends in H as (q & s & tr' & _ & _ & Htr' & Hno).
    rewrite Htr' in Htr. apply app_inv_head in Htr as <-.
    rewrite Forall_forall in Hno. destruct (Hno _ Hin h node eq_refl).
  - apply sender_step_enqueues in H as (n & _ & _ & _ & _ & Htr').
    rewrite Htr' in Htr. rewrite <- (app_nil_r (trace c)) in Htr at 1.
    apply app_inv_head in Htr as <-. apply elem_of_nil in Hin. destruct Hin.
  - unfold handlerQueueLoop_step in H.
    destruct (handlerQueue c) as [|n rest] eqn:Hq; [discriminate|].
    destruct (nodeHandlers c !! Tag n) as [h'|]; [|discriminate].
    injection H as <-. simpl in Htr. apply app_inv_head in Htr as <-.
    apply list_elem_of_singleton in Hin. injection Hin as -> ->. eauto.
Qed.


(** The queue never holds more than its capacity, and the handler table
    stays the one of the construction. *)
Lemma dispatcher_step_capacity c c' :
  dispatcher_step c c' ->
  length (handlerQueue c) <= handlerQueueSize ->
  length (handlerQueue c') <= handlerQueueSize.
Proof.
  intros [data H | i H | H] Hcap.
  - revert H. unfold handleFrame, receiveResponse. run; intros E; simplify_eq; simpl; auto.
    all: rewrite length_app; simpl;
      match goal with Hr : (_ <? _)%nat = true |- _ => apply Nat.ltb_lt in Hr; lia end.
  - apply sender_step_enqueues in H as (n & _ & Hroom & -> & _).
    rewrite length_app. simpl. lia.
  - unfold handlerQueueLoop_step in H.
    destruct (handlerQueue c) as [|n rest] eqn:Hq; [discriminate|].
    destruct (nodeHandlers c !! Tag n); [|discriminate].
    injection H as <-. simpl in *. lia.
Qed.

Lemma dispatcher_step_keeps_handlers c c' :
  dispatcher_step c c' -> nodeHandlers c' = nodeHandlers c.
Proof.
  intros [data H | i H | H]; revert H.
  - unfold handleFrame, receiveResponse. run; intros E; simplify_eq; reflexivity.
  - unfold sender_step. run; intros E; simplify_eq; reflexivity.
  - unfold handlerQueueLoop_step. run; intros E; simplify_eq; reflexivity.
Qed.

(** *** Errors of the store writes *)

Lemma unlogged_snoc tr e :
  unlogged (tr ++ [e]) = unlogged tr ++ (if is_log e then [] else [e]).
Proof. unfold unlogged. rewrite filter_app. destruct e; reflexivity. Qed.

(** Takes two related clients apart and identifies their equal fields. *)
Ltac open_sim H :=
  match type of H with
  | same_but_errors ?c1 ?c2 =>
      destruct c1 as [[? ? ? ? ?] ? ? ? ? ? ? ? ? ? ? ?];
      destruct c2 as [[? ? ? ? ?] ? ? ? ? ? ? ? ? ? ? ?];
      unfold same_but_errors, same_writes in H; simpl in H;
      destruct H as ((? & Hcs & Hct & ? & Hsave) & ? & ? & ? & ? & ? & ? & ? & ? & ? & ? & Htr);
      subst;
      destruct Hcs as [? ? (Hmuted & Hpinned & Harchived)|];
      destruct Hct as [? ? Hname|]
  end.

(** Two writes that were run on the same world left the same world. *)
Ltac same_world :=
  match goal with
  | H1 : ?t1 = (?w1, ?e1), H2 : ?t2 = (?w2, ?e2) |- _ =>
      assert (w1 = w2)
        by (transitivity (fst t1);
            [ rewrite H1; reflexivity
            | transitivity (fst t2); [solve [auto] | rewrite H2; reflexivity] ]);
      subst w1; clear H1
  end.

Ltac close_sim :=
  try same_world;
  unfold same_outcome, same_but_errors, same_writes; simpl;
  rewrite ?unlogged_snoc; simpl; rewrite ?app_nil_r;
  repeat split; try congruence; try (constructor; repeat split; assumption);
  auto.

Lemma sim_dispatchAppState m evts c1 c2 :
  same_but_errors c1 c2 ->
  same_outcome eq (dispatchAppState m evts c1) (dispatchAppState m evts c2).
Proof.
  intros H. open_sim H.
  all: unfold same_outcome, dispatchAppState; run; auto; try discriminate.
  all: try match goal with H : bool_decide _ = false |- _ =>
         apply bool_decide_eq_false in H; exfalso; apply H; discriminate end.
  all: try match goal with H : bool_decide _ = true |- _ =>
         apply bool_decide_eq_true in H; contradiction end.
  all: close_sim.
Qed.


Lemma same_outcome_bind {A B : Type} (V : B -> B -> Prop) (m : M A) (k : A -> M B) c1 c2 :
  same_outcome eq (m c1) (m c2) ->
  (forall a c1' c2', same_but_errors c1' c2' -> same_outcome V (k a c1') (k a c2')) ->
  same_outcome V (bind m k c1) (bind m k c2).
Proof.
  unfold bind. intros Hm Hk.
  destruct (m c1), (m c2); simpl in Hm; try contradiction; auto.
  destruct Hm as [<- Hc]. apply Hk, Hc.
Qed.

Lemma sim_ret {A : Type} (a : A) c1 c2 :
  same_but_errors c1 c2 -> same_outcome eq (ret a c1) (ret a c2).
Proof. intros H. split; auto. Qed.

Lemma sim_emit c1 c2 :
  same_but_errors c1 c2 ->
  same_outcome eq (gets EmitAppStateEventsOnFullSync c1) (gets EmitAppStateEventsOnFullSync c2).
Proof. intros H. split; [apply H | exact H]. Qed.

Lemma sim_dispatchEvent evt c1 c2 :
  same_but_errors c1 c2 -> same_outcome eq (dispatchEvent evt c1) (dispatchEvent evt c2).
Proof. intros H. open_sim H; unfold dispatchEvent; close_sim. Qed.

Lemma sim_Lock c1 c2 : same_but_errors c1 c2 -> same_outcome eq (Lock c1) (Lock c2).
Proof. intros H. open_sim H; unfold Lock; run; close_sim. Qed.

Lemma sim_defer_Unlock {A : Type} (body : M A) c1 c2 :
  same_outcome eq (body c1) (body c2) ->
  same_outcome eq (defer Unlock body c1) (defer Unlock body c2).
Proof.
  unfold defer. destruct (body c1) as [a1 c1'| | |], (body c2) as [a2 c2'| | |];
    simpl; try contradiction; auto.
  intros [<- H]. open_sim H; close_sim.
Qed.

Lemma sim_DeleteAppStateVersion name c1 c2 :
  same_but_errors c1 c2 ->
  same_outcome eq (AppState_DeleteAppStateVersion name c1)
    (AppState_DeleteAppStateVersion name c2).
Proof. intros H. open_sim H; unfold same_outcome; run; close_sim. Qed.

Lemma sim_GetAppStateVersion name c1 c2 :
  same_but_errors c1 c2 ->
  same_outcome eq (AppState_GetAppStateVersion name c1) (AppState_GetAppStateVersion name c2).
Proof. intros H. open_sim H; unfold same_outcome; run; close_sim. Qed.

Lemma sim_fetchAppStatePatches name v c1 c2 :
  same_but_errors c1 c2 ->
  same_outcome eq (fetchAppStatePatches name v c1) (fetchAppStatePatches name v c2).
Proof.
  intros H. open_sim H; unfold same_outcome, fetchAppStatePatches; run; close_sim.
Qed.

Lemma sim_DecodePatches patches state v c1 c2 :
  same_but_errors c1 c2 ->
  same_outcome eq (appStateProc_DecodePatches patches state v c1)
    (appStateProc_DecodePatches patches state v c2).
Proof. intros H. open_sim H; unfold same_outcome; run; close_sim. Qed.

Lemma sim_dispatch_mutations (ms : list appstate.Mutation) fullSync c1 c2 :
  same_but_errors c1 c2 ->
  same_outcome eq (for_range ms (dispatch_mutation fullSync) c1)
    (for_range ms (dispatch_mutation fullSync) c2).
Proof.
  revert c1 c2. induction ms as [|m ms IH]; intros c1 c2 H; simpl.
  - apply sim_ret, H.
  - apply same_outcome_bind; [|intros [] ? ?; apply IH].
    unfold dispatch_mutation. apply same_outcome_bind; [apply sim_emit, H|].
    intros emit ? ?. apply sim_dispatchAppState.
Qed.

Lemma sim_FetchAppState_loop fuel name fullSync state c1 c2 :
  same_but_errors c1 c2 ->
  same_outcome eq (FetchAppState_loop fuel name fullSync state c1)
    (FetchAppState_loop fuel name fullSync state c2).
Proof.
  revert state c1 c2. induction fuel as [|fuel IH]; intros state c1 c2 H; simpl; [exact I|].
  apply same_outcome_bind; [apply sim_fetchAppStatePatches, H|].
  intros [patches|err] ? ? H1; [|apply sim_ret, H1].
  apply same_outcome_bind; [apply sim_DecodePatches, H1|].
  intros [[mutations newState]|err] ? ? H2; [|apply sim_ret, H2].
  apply same_outcome_bind; [apply sim_dispatch_mutations, H2|].
  intros [] ? ? H3. destruct (HasMorePatches patches); [apply IH, H3 | apply sim_ret, H3].
Qed.

Lemma sim_FetchAppState_sync fuel name fullSync state c1 c2 :
  same_but_errors c1 c2 ->
  same_outcome eq (FetchAppState_sync fuel name fullSync state c1)
    (FetchAppState_sync fuel name fullSync state c2).
Proof.
  intros H. unfold FetchAppState_sync.
  apply same_outcome_bind; [apply sim_FetchAppState_loop, H|].
  intros [e|] ? ? H1; [apply sim_ret, H1|].
  apply same_outcome_bind; [|intros [] ? ?; apply sim_ret].
  destruct fullSync; [apply sim_dispatchEvent, H1 | apply sim_ret, H1].
Qed.

(** C5: two clients whose sub-stores write the same but report different
    errors get the same outcome from [FetchAppState]: the same return
    value, the same outside world and the same calls (store writes of all
    mutations, events, IQs), up to the log lines. *)
Theorem FetchAppState_store_errors_only_logged fuel name fullSync onlyIfNotSynced c1 c2 :
  same_but_errors c1 c2 ->
  same_outcome eq (FetchAppState fuel name fullSync onlyIfNotSynced c1)
    (FetchAppState fuel name fullSync onlyIfNotSynced c2).
Proof.
  intros H. unfold FetchAppState.
  apply same_outcome_bind; [apply sim_Lock, H|].
  intros [] ? ? H1. apply sim_defer_Unlock.
  apply same_outcome_bind;
    [destruct fullSync; [apply sim_DeleteAppStateVersion, H1 | apply sim_ret, H1]|].
  intros [e|] ? ? H2; [apply sim_ret, H2|].
  apply same_outcome_bind; [apply sim_GetAppStateVersion, H2|].
  intros [[version hash] [e|]] ? ? H3; [apply sim_ret, H3|].
  destruct (version =? 0)%N; [apply sim_FetchAppState_sync, H3|].
  destruct onlyIfNotSynced; [apply sim_ret, H3 | apply sim_FetchAppState_sync, H3].
Qed.

End Proofs.

(** ** More of the client

    Further properties of the same methods, of the consumer of the queue,
    of runs of a client and of the [appstate] command of mdtest. *)

Section MoreProofs.

Context `{env : Env}.

#[local] Arguments Nat.ltb : simpl never.
#[local] Arguments N.eqb : simpl never.

(** *** More on the dispatcher *)

(** X1: the footprint of [handleFrame]: a call that returns has only
    written log lines and, at most, delivered the node to a waiter; the
    outside world, the device, the two handler tables and the mutex are
    as before, also when the queue is full. *)
Theorem handleFrame_footprint data c c' :
  handleFrame data c = Ok tt c' ->
  exists tr,
    trace c' = trace c ++ tr /\
    Forall (fun e => is_log e = true \/ exists ch n, e = EChanSend ch n) tr /\
    world c' = world c /\ Store c' = Store c /\
    nodeHandlers c' = nodeHandlers c /\ eventHandlers c' = eventHandlers c /\
    appStateSyncLock c' = appStateSyncLock c.
Proof.
  unfold handleFrame, receiveResponse. run; intros E; simplify_eq.
  all: eexists; (split; [trace_eq|]).
  all: split; [|repeat split].
  all: repeat (apply List.Forall_cons; [first [left; reflexivity | right; eauto]|]).
  all: apply List.Forall_nil.
Qed.

(** X2: a frame that does not unpack, or whose unpacked bytes do not
    decode, is dropped: the client is as before but for the warning with
    the error and the debug line with the bytes that failed, the frame
    itself in the first case and the unpacked bytes in the second. *)
Theorem handleFrame_codec_error data c bad format err :
  (waBinary_Unpack data = inr err /\ bad = data /\
   format = "Failed to decompress frame: %v") \/
  (waBinary_Unpack data = inl bad /\ waBinary_Unmarshal bad = inr err /\
   format = "Failed to decode node in frame: %v") ->
  handleFrame data c =
    Ok tt (record (ELog Log LvlDebug "Errored frame hex: %s" [LHex bad])
             (record (ELog Log LvlWarn format [LErr err]) c)).
Proof.
  unfold handleFrame.
  intros [(Hu & -> & ->) | (Hu & Hn & ->)]; rewrite Hu; [|rewrite Hn]; reflexivity.
Qed.

(** X3: a node with the tag "xmlstreamend" is only logged: whatever
    its [id] attribute and whatever the handler table, no waiter is
    consumed and nothing is queued. *)
Theorem handleFrame_stream_end data decompressed node c :
  waBinary_Unpack data = inl decompressed ->
  waBinary_Unmarshal decompressed = inl node ->
  Tag node = "xmlstreamend" ->
  exists c',
    handleFrame data c = Ok tt c' /\
    responseWaiters c' = responseWaiters c /\
    waiting c' = waiting c /\
    trace c' =
      trace c ++ [ELog recvLog LvlDebug "%s" [LXML node];
                  ELog Log LvlWarn "Received stream end frame" []].
Proof.
  intros Hu Hn Ht. unfold handleFrame. rewrite Hu, Hn, Ht.
  eexists. split; [reflexivity|]. simpl. rewrite <- app_assoc. auto.
Qed.

(** X4: a node whose tag has no entry in the handler table is never
    accepted for a handler: the queue and the waiting senders are as
    before, whether a waiter takes the node or not. *)
Theorem handleFrame_unhandled_tag data decompressed node c :
  waBinary_Unpack data = inl decompressed ->
  waBinary_Unmarshal decompressed = inl node ->
  nodeHandlers c !! Tag node = None ->
  exists c',
    handleFrame data c = Ok tt c' /\
    handlerQueue c' = handlerQueue c /\ senders c' = senders c.
Proof.
  intros Hu Hn Ht. unfold handleFrame, receiveResponse. rewrite Hu, Hn.
  run; try congruence; eexists; repeat split.
Qed.

End MoreProofs.

Section MoreMutations.

Context `{env : Env}.

#[local] Arguments Nat.ltb : simpl never.
#[local] Arguments N.eqb : simpl never.

(** *** More on the mutations *)

(** X5: a SET mutation whose [index[0]] is none of the eight kinds of
    the switch has no effect but the generic event, when events are
    dispatched: no store write, no typed event, no log line, no error. *)
Theorem dispatchAppState_unknown_kind m evts c k :
  appstate.Operation m = waProto.SyncdMutation_SET ->
  appstate.Index m !! 0 = Some k ->
  k ∉ ["mute"; "pin_v1"; "archive"; "contact"; "star"; "deleteMessageForMe";
       "setting_pushName"; "setting_unarchiveChats"] ->
  dispatchAppState m evts c =
    Ok tt (if evts
           then dispatched (events.AppState (appstate.Index m) (appstate.Action m)) c
           else c).
Proof.
  intros Hop Hk Hkind.
  rewrite !not_elem_of_cons in Hkind.
  destruct Hkind as (H1 & H2 & H3 & H4 & H5 & H6 & H7 & H8 & _).
  apply String.eqb_neq in H1, H2, H3, H4, H5, H6, H7, H8.
  unfold dispatchAppState. rewrite Hop. simpl.
  destruct (appstate.Index m) as [|k' rest] eqn:Hidx; [discriminate|].
  simpl in Hk. injection Hk as ->.
  destruct rest as [|index1 rest]; unfold Nat.ltb; destruct evts; unfold_methods; simpl;
    rewrite H1, H2, H3, H4, H5, H6, H7, H8; reflexivity.
Qed.

(** X6: [dispatchAppState] changes [Store.PushName] for a SET mutation
    of kind "setting_pushName" and for no other: it is then the name of
    the action (empty for a nil action), also when [Save] fails. *)
Theorem dispatchAppState_PushName m evts c c' :
  dispatchAppState m evts c = Ok tt c' ->
  PushName (Store c') =
    if is_SET (appstate.Operation m) &&
       bool_decide (appstate.Index m !! 0 = Some "setting_pushName")
    then waProto.GetName (waProto.GetPushNameSetting (appstate.Action m))
    else PushName (Store c).
Proof.
  remember (if is_SET (appstate.Operation m) &&
               bool_decide (appstate.Index m !! 0 = Some "setting_pushName")
            then waProto.GetName (waProto.GetPushNameSetting (appstate.Action m))
            else PushName (Store c)) as expected eqn:Hexp.
  unfold dispatchAppState. run; try discriminate; intros E; simplify_eq; simpl.
  all: destruct (appstate.Operation m); simpl in *; try discriminate.
  all: repeat match goal with
    | H : (_ =? _) = true |- _ => apply String.eqb_eq in H; subst
    end.
  all: try case_bool_decide; simplify_eq; try reflexivity; try discriminate.
  all: try (exfalso; match goal with H : _ <> _ |- _ => apply H; reflexivity end).
  all: match goal with H : (?s =? ?s) = false |- _ => rewrite String.eqb_refl in H end;
    discriminate.
Qed.

Lemma store_writes_snoc (tr : list Effect) e :
  filter (fun e => is_store_write e = true) (tr ++ [e]) =
  filter (fun e => is_store_write e = true) tr ++ (if is_store_write e then [e] else []).
Proof. rewrite filter_app. destruct e; reflexivity. Qed.

(** X7: the store writes of a mutation do not depend on whether events
    are dispatched: with and without, the same writes are attempted and
    the device is left the same, as in a silent full sync. *)
Theorem dispatchAppState_writes_without_events m c c1 c2 :
  dispatchAppState m true c = Ok tt c1 ->
  dispatchAppState m false c = Ok tt c2 ->
  filter (fun e => is_store_write e = true) (trace c1) =
    filter (fun e => is_store_write e = true) (trace c2) /\
  Store c1 = Store c2.
Proof.
  intros H1 H2. revert H1. revert H2.
  unfold dispatchAppState. run; try discriminate.
  all: intros E1 E2; simplify_eq; simpl; try (split; reflexivity).
  all: rewrite ?store_writes_snoc; simpl; rewrite ?app_nil_r; split; reflexivity.
Qed.

(** X8: the order of the events of one mutation: the generic event, if
    any, is the first call, and a typed event is the last call, after the
    store write and its log line, and is of the kind that [index[0]]
    names. *)
Theorem dispatchAppState_event_order m evts c c' tr i evt :
  dispatchAppState m evts c = Ok tt c' ->
  trace c' = trace c ++ tr ->
  tr !! i = Some (EDispatchEvent evt) ->
  match typed_kind evt with
  | None => i = 0 /\ evt = events.AppState (appstate.Index m) (appstate.Action m)
  | Some kind => S i = length tr /\ appstate.Index m !! 0 = Some kind
  end.
Proof.
  unfold dispatchAppState. run; try discriminate; intros E Htr Hi; simplify_eq; simpl in *.
  all: rewrite <- ?app_assoc in Htr; simpl in Htr.
  all: first
    [ apply app_inv_head in Htr; subst tr
    | assert (tr = [])
        by (apply (f_equal length) in Htr; rewrite length_app in Htr;
            destruct tr; [reflexivity | simpl in Htr; lia]);
      subst tr ].
  all: repeat match goal with
    | H : (_ =? _) = true |- _ => apply String.eqb_eq in H; subst
    end.
  all: repeat (destruct i as [|i]; simpl in Hi; simplify_eq; simpl; auto).
Qed.

Lemma dispatchAppState_generic m evts c :
  wpg True (dispatchAppState m evts)
    (fun _ c' =>
       exists tr, trace c' = trace c ++ tr /\
         omap generic_of tr =
           if is_SET (appstate.Operation m) && evts
           then [(appstate.Index m, appstate.Action m)] else []) c.
Proof.
  remember (if is_SET (appstate.Operation m) && evts
            then [(appstate.Index m, appstate.Action m)] else []) as expected eqn:Hexp.
  unfold wpg, dispatchAppState. run; auto.
  all: destruct (appstate.Operation m); simpl in *; try discriminate; subst expected.
  all: eexists; (split; [trace_eq | reflexivity]).
Qed.

(** X9: a batch of decoded mutations is reported in order: with events
    on (an incremental sync, or the flag set) the generic events are those
    of the SET mutations of the batch, one each and in the order of the
    batch; with events off there is none. *)
Theorem dispatch_mutations_generic_events (ms : list appstate.Mutation) fullSync c c' :
  for_range ms (dispatch_mutation fullSync) c = Ok tt c' ->
  exists tr,
    trace c' = trace c ++ tr /\
    omap generic_of tr =
      if negb fullSync || EmitAppStateEventsOnFullSync c
      then map (fun m => (appstate.Index m, appstate.Action m))
             (filter (fun m => is_SET (appstate.Operation m) = true) ms)
      else [].
Proof.
  revert c. induction ms as [|m ms IH]; intros c; simpl.
  - intros [= <-]. exists []. rewrite app_nil_r. destruct (_ || _); auto.
  - unfold bind at 1, dispatch_mutation at 1. unfold bind at 1, gets at 1.
    destruct (dispatchAppState m _ c) as [[] c1| | |] eqn:Hd; try discriminate.
    intros Hrest.
    pose proof (wpg_ok _ _ _ _ _ _ (dispatchAppState_generic m _ c) Hd) as (t1 & E1 & G1).
    pose proof (wpg_ok _ _ _ _ _ _ (dispatchAppState_grows m _ c) Hd) as [Hf _].
    assert (Hemit : EmitAppStateEventsOnFullSync c1 = EmitAppStateEventsOnFullSync c)
      by apply Hf.
    apply IH in Hrest as (t2 & E2 & G2). rewrite Hemit in G2.
    exists (t1 ++ t2). split; [rewrite E2, E1; symmetry; apply app_assoc|].
    rewrite omap_app, G1, G2. rewrite filter_cons.
    destruct (negb fullSync || EmitAppStateEventsOnFullSync c);
      destruct (appstate.Operation m); simpl; reflexivity.
Qed.

(** *** The event bus *)

(** X10: event handlers run in the order of their registration: after
    [AddEventHandler handler], an event reaches the handlers that were
    there before, in their order, and then [handler], which sees what they
    left. *)
Theorem dispatchEvent_after_AddEventHandler handler evt c :
  exists c1 c2,
    dispatchEvent evt c = Ok tt c1 /\
    (AddEventHandler handler ;; dispatchEvent evt) c = Ok tt c2 /\
    world c2 = handler evt (world c1) /\
    trace c2 = trace c1 /\
    eventHandlers c2 = eventHandlers c1 ++ [handler].
Proof.
  do 2 eexists. split; [reflexivity|]. split; [reflexivity|]. simpl.
  rewrite fold_left_app. auto.
Qed.

End MoreMutations.

Section MoreSync.

Context `{env : Env}.

#[local] Arguments Nat.ltb : simpl never.
#[local] Arguments N.eqb : simpl never.

(** *** More on the sync *)

Lemma dispatchAppState_calls name m evts c :
  wpg True (dispatchAppState m evts) (fun _ c' => grows (sync_call_ok name evts) c c') c.
Proof.
  unfold wpg, dispatchAppState. run; auto.
  all: eapply grows_intro; [repeat split | trace_eq | repeat constructor].
Qed.

Lemma dispatch_mutations_calls name (ms : list appstate.Mutation) fullSync c :
  wpg True (for_range ms (dispatch_mutation fullSync))
    (fun _ c' =>
       grows (sync_call_ok name (negb fullSync || EmitAppStateEventsOnFullSync c)) c c') c.
Proof.
  revert c. induction ms as [|m ms IH]; intros c; simpl.
  - apply grows_refl.
  - apply wpg_bind. unfold dispatch_mutation at 1. unfold bind at 1, gets at 1.
    eapply wpg_mono; [|apply (dispatchAppState_calls name)]. intros [] c1 H1. simpl in H1.
    eapply wpg_mono; [|apply IH]. intros [] c2 H2. simpl in H2.
    assert (E : EmitAppStateEventsOnFullSync c1 = EmitAppStateEventsOnFullSync c)
      by apply H1.
    rewrite E in H2. eapply grows_trans; eauto.
Qed.

(** A turn of the sync loop that returns: its first call is the query for
    the version of the state it was given, the rest are calls of the
    sync, and an error it returns is a wrapped fetch or decode error. *)
Lemma FetchAppState_loop_calls fuel name fullSync state c :
  wpg True (FetchAppState_loop fuel name fullSync state)
    (fun r c' =>
       same_frame c c' /\
       (exists rest,
          trace c' = trace c ++ ESendIQ (sync_query name (appstate.Version state)) :: rest /\
          Forall (sync_call_ok name (negb fullSync || EmitAppStateEventsOnFullSync c)) rest) /\
       (forall e, r = Some e ->
          exists cause,
            e = Errorf "failed to fetch app state %s patches: %w" [name] cause \/
            e = Errorf "failed to decode app state %s patches: %w" [name] cause)) c.
Proof.
  revert state c. induction fuel as [|fuel IH]; intros state c; [exact I|].
  unfold wpg. simpl. unfold fetchAppStatePatches. run; auto.
  all: repeat match goal with
    | H : for_range _ _ ?c0 = Ok _ _ |- _ =>
        apply (wpg_ok _ _ _ _ _ _ (dispatch_mutations_calls name _ _ c0)) in H;
        simpl in H; destruct H as [? (? & ? & ?)]
    | H : FetchAppState_loop _ _ _ _ ?c0 = Ok _ _ |- _ =>
        apply (wpg_ok _ _ _ _ _ _ (IH _ c0)) in H;
        simpl in H; destruct H as (? & (? & ? & ?) & ?)
    end.
  all: split;
    [ repeat match goal with H : same_frame _ _ |- _ =>
        destruct H as (?&?&?&?&?&?&?&?&?&?&?) end;
      simpl in *; repeat split; congruence | ].
  all: repeat match goal with H : same_frame _ _ |- _ =>
         destruct H as (?&?&?&?&?&?&?&?&?&?&?) end; simpl in *.
  all: repeat match goal with H : EmitAppStateEventsOnFullSync _ = _ |- _ =>
         rewrite H in *; clear H end.
  all: repeat match goal with H : trace _ = _ |- _ => rewrite H; clear H end.
  all: split; [eexists; split; [unfold sync_query; trace_eq|] | ].
  all: try (intros e' E; simplify_eq; eauto; fail).
  all: try (intros e' E; discriminate).
  all: repeat first [apply Forall_app; split | apply List.Forall_cons | apply List.Forall_nil
                    | assumption | exact I | reflexivity | (simpl; eauto; fail)].
Qed.


Lemma FetchAppState_sync_calls fuel name fullSync state c :
  wpg True (FetchAppState_sync fuel name fullSync state)
    (fun r c' =>
       same_frame c c' /\
       exists rest tail,
         trace c' =
           trace c ++ ESendIQ (sync_query name (appstate.Version state)) :: rest ++ tail /\
         Forall (sync_call_ok name (negb fullSync || EmitAppStateEventsOnFullSync c)) rest /\
         ((r = None /\
           tail = if fullSync then [EDispatchEvent (events.AppStateSyncComplete name)] else []) \/
          (tail = [] /\
           exists cause,
             r = Some (Errorf "failed to fetch app state %s patches: %w" [name] cause) \/
             r = Some (Errorf "failed to decode app state %s patches: %w" [name] cause)))) c.
Proof.
  unfold wpg, FetchAppState_sync. run; auto.
  all: match goal with H : FetchAppState_loop _ _ _ _ ?c0 = Ok _ _ |- _ =>
         apply (wpg_ok _ _ _ _ _ _ (FetchAppState_loop_calls _ _ _ _ c0)) in H;
         simpl in H; destruct H as (Hf & (rest & Ht & Hr) & He) end.
  all: split;
    [ destruct Hf as (?&?&?&?&?&?&?&?&?&?&?); repeat split; simpl in *; congruence | ].
  all: exists rest; simpl; rewrite Ht.
  all: first
    [ exists [EDispatchEvent (events.AppStateSyncComplete name)];
      split; [rewrite <- app_assoc; reflexivity|]
    | exists []; split; [rewrite ?app_nil_r; reflexivity|] ];
    (split; [exact Hr|]).
  all: first
    [ left; split; reflexivity
    | right; split; [reflexivity|];
      destruct (He _ eq_refl) as [cause [-> | ->]]; eauto ].
Qed.

(** The ways in which a call of [FetchAppState] returns. *)
Lemma FetchAppState_paths fuel name fullSync onlyIfNotSynced c r c' :
  FetchAppState fuel name fullSync onlyIfNotSynced c = Ok r c' ->
  appStateSyncLock c = false /\ same_frame c c' /\
  exists body,
    trace c' =
      trace c ++ (if fullSync then [EDeleteAppStateVersion name] else []) ++ body /\
    ((fullSync = true /\ body = [] /\
      exists cause,
        r = Some (Errorf "failed to reset app state %s version: %w" [name] cause)) \/
     (body = [EGetAppStateVersion name] /\
      exists cause, r = Some (Errorf "failed to get app state %s version: %w" [name] cause)) \/
     (body = [EGetAppStateVersion name] /\ r = None /\ onlyIfNotSynced = true /\
      version_read name fullSync c <> 0%N) \/
     (exists rest tail,
        body =
          EGetAppStateVersion name ::
          ESendIQ (sync_query name (version_read name fullSync c)) :: rest ++ tail /\
        Forall (sync_call_ok name
                  (negb (fullSync || (version_read name fullSync c =? 0)%N)
                   || EmitAppStateEventsOnFullSync c)) rest /\
        ((r = None /\
          tail = if fullSync || (version_read name fullSync c =? 0)%N
                 then [EDispatchEvent (events.AppStateSyncComplete name)] else []) \/
         (tail = [] /\
          exists cause,
            r = Some (Errorf "failed to fetch app state %s patches: %w" [name] cause) \/
            r = Some (Errorf "failed to decode app state %s patches: %w" [name] cause))))).
Proof.
  unfold version_read, FetchAppState. run; try discriminate.
  all: intros E; simplify_eq; simpl.
  all: try match goal with H : FetchAppState_sync _ _ _ _ ?c0 = Ok _ _ |- _ =>
         apply (wpg_ok _ _ _ _ _ _ (FetchAppState_sync_calls _ _ _ _ c0)) in H;
         simpl in H; destruct H as (Hf & rest & tail & Ht & Hr & Hend) end.
  all: split; [reflexivity|].
  all: split;
    [ try destruct Hf as (?&?&?&?&?&?&?&?&?&?&?); repeat split; simpl in *; congruence | ].
  all: try rewrite Ht; simpl; rewrite <- ?app_assoc; simpl.
  all: repeat match goal with H : GetAppStateVersion _ _ _ = _ |- _ =>
         rewrite H in *; simpl in *; clear H end.
  all: repeat match goal with H : (_ =? 0)%N = _ |- _ => rewrite H in * end.
  all: eexists; (split; [reflexivity|]).
  all: try (left; split; [reflexivity|]; split; [reflexivity|]; eauto; fail).
  all: try (right; left; split; [reflexivity|]; eauto; fail).
  all: try (right; right; left; split; [reflexivity|]; split; [reflexivity|];
            split; [reflexivity|];
            match goal with H : (_ =? 0)%N = false |- _ => apply N.eqb_neq in H; exact H end).
  all: right; right; right; exists rest, tail; (split; [reflexivity|]).
  all: rewrite ?orb_true_r, ?orb_false_r in *; simpl in *; auto.
Qed.


Lemma sync_calls_projections name evts (rest : list Effect) :
  Forall (sync_call_ok name evts) rest ->
  versions_deleted rest = [] /\ versions_read rest = [] /\ invoked rest = [] /\
  Forall (fun q => exists v, q = sync_query name v) (queries rest) /\
  Forall (fun e => events.per_mutation e = true) (events_of rest) /\
  (evts = false -> events_of rest = []) /\
  Forall (fun e => forall st v, e = EDecodePatches st v -> v = true) rest.
Proof.
  induction 1 as [|e rest He _ (IH1 & IH2 & IH3 & IH4 & IH5 & IH6 & IH7)].
  { repeat split; constructor. }
  destruct e; simpl in He |- *; try contradiction;
    repeat split; auto; try (constructor; auto; intros; congruence).
  - constructor; [apply He | exact IH5].
  - intros E. destruct He as [He _]. congruence.
Qed.

(** X11: a call of [FetchAppState] that returns, with nil or with an
    error, found the mutex free and leaves it free, and never writes the
    fields of the dispatcher, the event handlers, the flag or the wiring
    of the device. *)
Theorem FetchAppState_releases_mutex fuel name fullSync onlyIfNotSynced c r c' :
  FetchAppState fuel name fullSync onlyIfNotSynced c = Ok r c' ->
  appStateSyncLock c = false /\ appStateSyncLock c' = false /\ same_frame c c'.
Proof.
  intros H. apply FetchAppState_paths in H as (Hl & Hf & _).
  repeat split; try apply Hf; try exact Hl.
  destruct Hf as (_ & _ & _ & _ & E & _). congruence.
Qed.

(** X12: every error that [FetchAppState] returns is a cause wrapped
    by one of its four messages, with the name of the collection; an
    error of a store write or of an event handler is never returned. *)
Theorem FetchAppState_error_is_wrapped fuel name fullSync onlyIfNotSynced c e c' :
  FetchAppState fuel name fullSync onlyIfNotSynced c = Ok (Some e) c' ->
  exists format cause,
    e = Errorf format [name] cause /\ format ∈ FetchAppState_formats.
Proof.
  intros H. apply FetchAppState_paths in H as (_ & _ & body & _ & Hp).
  unfold FetchAppState_formats.
  destruct Hp as [(_ & _ & cause & E) | [(_ & cause & E) | [(_ & E & _) |
    (rest & tail & _ & _ & [(E & _) | (_ & cause & [E | E])])]]];
    try discriminate; injection E as ->; do 2 eexists; (split; [reflexivity|]);
    repeat first [apply list_elem_of_here | apply list_elem_of_further].
Qed.

(** X13: the events of a call that returns are per-mutation events,
    followed by one [AppStateSyncComplete] of the collection exactly when
    the call returns nil after at least one query and the sync was a full
    one, by request or because the version read was 0. *)
Theorem FetchAppState_events fuel name fullSync onlyIfNotSynced c r c' :
  FetchAppState fuel name fullSync onlyIfNotSynced c = Ok r c' ->
  exists tr evs,
    trace c' = trace c ++ tr /\
    Forall (fun e => events.per_mutation e = true) evs /\
    events_of tr =
      evs ++
      match r, queries tr with
      | None, _ :: _ =>
          if fullSync || (version_read name fullSync c =? 0)%N
          then [events.AppStateSyncComplete name] else []
      | _, _ => []
      end.
Proof.
  intros H. apply FetchAppState_paths in H as (_ & _ & body & Ht & Hp).
  exists ((if fullSync then [EDeleteAppStateVersion name] else []) ++ body).
  destruct Hp as [(-> & -> & cause & ->) | [(-> & cause & ->) | [(-> & -> & _) |
    (rest & tail & -> & Hr & Hend)]]].
  - exists []. split; [exact Ht|]. split; [constructor|]. reflexivity.
  - exists []. split; [exact Ht|]. split; [constructor|].
    destruct fullSync; reflexivity.
  - exists []. split; [exact Ht|]. split; [constructor|].
    destruct fullSync; reflexivity.
  - apply sync_calls_projections in Hr as (_ & _ & _ & _ & Hpm & _ & _).
    exists (events_of rest). split; [exact Ht|]. split; [exact Hpm|].
    unfold events_of, queries. rewrite !omap_app. simpl. rewrite !omap_app.
    destruct Hend as [(-> & ->) | (-> & cause & [-> | ->])].
    + destruct fullSync; simpl.
      * reflexivity.
      * destruct (_ =? _)%N; simpl; rewrite ?app_nil_r; reflexivity.
    + destruct fullSync; simpl; rewrite ?app_nil_r; reflexivity.
    + destruct fullSync; simpl; rewrite ?app_nil_r; reflexivity.
Qed.

(** X14: every query of a call is the app-state query for its
    collection with [return_snapshot] false, the first one asks for the
    patches from the version read from the store, and the patches are
    always decoded with MAC validation. *)
Theorem FetchAppState_queries fuel name fullSync onlyIfNotSynced c r c' :
  FetchAppState fuel name fullSync onlyIfNotSynced c = Ok r c' ->
  exists tr,
    trace c' = trace c ++ tr /\
    Forall (fun q => exists v, q = sync_query name v) (queries tr) /\
    (forall q, head (queries tr) = Some q ->
               q = sync_query name (version_read name fullSync c)) /\
    Forall (fun e => forall st v, e = EDecodePatches st v -> v = true) tr.
Proof.
  intros H. apply FetchAppState_paths in H as (_ & _ & body & Ht & Hp).
  eexists. split; [exact Ht|].
  destruct Hp as [(-> & -> & _) | [(-> & _) | [(-> & _) |
    (rest & tail & -> & Hr & Hend)]]].
  1-3: try destruct fullSync; simpl; repeat split; try (intros; discriminate);
       repeat constructor; intros; discriminate.
  apply sync_calls_projections in Hr as (_ & _ & _ & Hq & _ & _ & Hd).
  assert (Htail : queries tail = [] /\
                  Forall (fun e => forall st v, e = EDecodePatches st v -> v = true) tail).
  { destruct Hend as [(_ & ->) | (-> & _)]; [|split; constructor].
    destruct (_ || _); split; repeat constructor; intros; discriminate. }
  destruct Htail as [Hq' Hd'].
  unfold queries in *. rewrite !omap_app. simpl. rewrite !omap_app, Hq', app_nil_r.
  destruct fullSync; simpl; repeat split; try (intros q [= <-]; reflexivity).
  all: repeat first [apply List.Forall_cons | apply Forall_app; split | assumption
                    | (intros; discriminate) | (eexists; reflexivity)].
Qed.

(** X15: a call deletes the stored version of its collection exactly
    when [fullSync] is set, and then before any other call; it reads the
    version once, unless the delete failed, and touches the version of no
    other collection. *)
Theorem FetchAppState_store_access fuel name fullSync onlyIfNotSynced c r c' :
  FetchAppState fuel name fullSync onlyIfNotSynced c = Ok r c' ->
  exists tr,
    trace c' = trace c ++ tr /\
    versions_deleted tr = (if fullSync then [name] else []) /\
    (fullSync = true -> head tr = Some (EDeleteAppStateVersion name)) /\
    (versions_read tr = [name] \/
     versions_read tr = [] /\ fullSync = true /\
     exists cause,
       r = Some (Errorf "failed to reset app state %s version: %w" [name] cause)).
Proof.
  intros H. apply FetchAppState_paths in H as (_ & _ & body & Ht & Hp).
  eexists. split; [exact Ht|].
  destruct Hp as [(-> & -> & Hc) | [(-> & _) | [(-> & _) |
    (rest & tail & -> & Hr & Hend)]]].
  1-3: try destruct fullSync; simpl; repeat split; try reflexivity;
       try (intros; discriminate); auto.
  apply sync_calls_projections in Hr as (Hd & Hg & _).
  assert (Htail : versions_deleted tail = [] /\ versions_read tail = []).
  { destruct Hend as [(_ & ->) | (-> & _)]; [|split; reflexivity].
    destruct (_ || _); split; reflexivity. }
  destruct Htail as [Hd' Hg'].
  unfold versions_deleted, versions_read in *.
  rewrite !omap_app. simpl. rewrite !omap_app, Hd, Hg, Hd', Hg'.
  destruct fullSync; simpl; repeat split; auto; intros; discriminate.
Qed.

End MoreSync.

Section MoreRuns.

Context `{env : Env}.

#[local] Arguments Nat.ltb : simpl never.
#[local] Arguments N.eqb : simpl never.

(** *** Runs of a client *)

Lemma invoked_app (t1 t2 : list Effect) : invoked (t1 ++ t2) = invoked t1 ++ invoked t2.
Proof. apply omap_app. Qed.

Lemma handleFrame_accepts data c c' :
  handleFrame data c = Ok tt c' ->
  nodeHandlers c' = nodeHandlers c /\
  exists q s tr,
    handlerQueue c' = handlerQueue c ++ q /\ senders c' = senders c ++ s /\
    Forall (fun n => is_Some (nodeHandlers c !! Tag n)) (q ++ s) /\
    trace c' = trace c ++ tr /\ invoked tr = [].
Proof.
  unfold handleFrame, receiveResponse. run; intros E; simplify_eq; simpl.
  all: split; [reflexivity|].
  all: do 3 eexists;
    (split; [first [reflexivity | symmetry; apply app_nil_r]|]);
    (split; [first [reflexivity | symmetry; apply app_nil_r]|]).
  all: split; [|split; [trace_eq | reflexivity]].
  all: simpl; repeat constructor; eauto.
Qed.

(** What one step of a client keeps: the handler table, the bound of the
    queue, a handler for every waiting node, and every waiting node
    itself, unless the step is the call of a handler with it. *)
Lemma client_step_keeps c c' :
  client_step c c' ->
  nodeHandlers c' = nodeHandlers c /\
  (length (handlerQueue c) <= handlerQueueSize ->
   length (handlerQueue c') <= handlerQueueSize) /\
  (handlers_known c -> handlers_known c') /\
  exists tr,
    trace c' = trace c ++ tr /\
    forall node, node ∈ waiting c -> node ∈ waiting c' \/ node ∈ invoked tr.
Proof.
  unfold handlers_known, waiting.
  intros [[data H | i H | H] | fuel name fs only r H | handler H].
  - pose proof (dispatcher_step_capacity c c' (step_frame _ _ data H)) as Hcap.
    apply handleFrame_accepts in H as (Hn & q & s & tr & Hq & Hs & Hk & Ht & _).
    rewrite Hn. split; [reflexivity|]. split; [exact Hcap|]. rewrite Hq, Hs. split.
    + rewrite !Forall_app in *. tauto.
    + exists tr. split; [exact Ht|]. intros node. rewrite !elem_of_app. tauto.
  - pose proof (dispatcher_step_capacity c c' (step_sender _ _ i H)) as Hcap.
    pose proof (dispatcher_step_keeps_handlers c c' (step_sender _ _ i H)) as Hn.
    apply sender_step_enqueues in H as (n & Hi & _ & Hq & Hs & Ht).
    rewrite Hn. split; [reflexivity|]. split; [exact Hcap|]. rewrite Hq, Hs.
    split.
    + intros Hk. rewrite <- (take_drop_middle _ _ _ Hi) in Hk.
      rewrite !Forall_app, !Forall_cons in Hk.
      rewrite !Forall_app, Forall_cons, Forall_nil. tauto.
    + exists []. rewrite app_nil_r. split; [exact Ht|]. intros node Hin.
      rewrite <- (take_drop_middle _ _ _ Hi) in Hin.
      rewrite !elem_of_app, !elem_of_cons in Hin.
      rewrite !elem_of_app, elem_of_cons, elem_of_nil. tauto.
  - pose proof (dispatcher_step_capacity c c' (step_consumer _ _ H)) as Hcap.
    pose proof (dispatcher_step_keeps_handlers c c' (step_consumer _ _ H)) as Hn.
    unfold handlerQueueLoop_step in H.
    destruct (handlerQueue c) as [|n rest] eqn:Hq; [discriminate|].
    destruct (nodeHandlers c !! Tag n) as [h|]; [|discriminate].
    injection H as <-. simpl in *.
    split; [reflexivity|]. split; [exact Hcap|]. split.
    + rewrite Forall_cons. tauto.
    + exists [EInvokeHandler h n]. split; [reflexivity|]. intros node. simpl.
      rewrite !elem_of_cons, !elem_of_app. tauto.
  - apply FetchAppState_paths in H as (_ & Hf & body & Ht & _).
    destruct Hf as (_ & Hn & Hq & _ & _ & _ & Hs & _).
    rewrite Hn, Hq, Hs. repeat split; auto. eexists. split; [exact Ht|]. auto.
  - injection H as <-. simpl. repeat split; auto. exists []. rewrite app_nil_r. auto.
Qed.

(** X16: in every state that a client reaches from [NewClient], by
    frames, sender and consumer turns, syncs and registrations, the queue
    holds at most 2048 nodes, the handler table is the one of the
    construction, and every waiting node has a handler in it. *)
Theorem client_run_invariant deviceStore randomBytes emit w c :
  rtc client_step (NewClient deviceStore randomBytes emit w) c ->
  length (handlerQueue c) <= 2048 /\
  nodeHandlers c = NewClient_nodeHandlers /\
  handlers_known c.
Proof.
  intros H. change 2048 with handlerQueueSize.
  pattern c. eapply rtc_ind_r; [| |exact H].
  - unfold handlers_known, waiting. simpl. repeat split; [lia | constructor].
  - intros y z _ Hstep (Hcap & Hn & Hk).
    apply client_step_keeps in Hstep as (Hn' & Hcap' & Hk' & _).
    rewrite Hn'. auto.
Qed.

(** X17: in every such state the consumer finds a handler for the node
    at the head of the queue: its turn does not call a nil function, it
    invokes the handler of the node's tag and takes the node from the
    queue. *)
Theorem consumer_finds_handler deviceStore randomBytes emit w c node rest :
  rtc client_step (NewClient deviceStore randomBytes emit w) c ->
  handlerQueue c = node :: rest ->
  exists h c',
    NewClient_nodeHandlers !! Tag node = Some h /\
    handlerQueueLoop_step c = Ok tt c' /\
    handlerQueue c' = rest /\
    trace c' = trace c ++ [EInvokeHandler h node] /\
    world c' = run_nodeHandler h node (world c).
Proof.
  intros H Hq. apply client_run_invariant in H as (_ & Hn & Hk).
  unfold handlers_known, waiting in Hk. rewrite Hq in Hk. simpl in Hk.
  apply Forall_cons in Hk as [[h Hh] _].
  exists h. unfold handlerQueueLoop_step. rewrite Hq, Hh. rewrite Hn in Hh.
  eexists. repeat split. exact Hh.
Qed.

(** X18: the consumer serves the queue in order: [length q] turns on a
    queue that starts with the nodes [q], each with a handler in the
    table, invoke the handlers for exactly these nodes, oldest first, and
    leave the rest of the queue. *)
Theorem handlerQueueLoop_fifo (q rest : list Node) c :
  handlerQueue c = q ++ rest ->
  Forall (fun n => is_Some (nodeHandlers c !! Tag n)) q ->
  exists c',
    handlerQueueLoop (length q) c = Ok tt c' /\
    handlerQueue c' = rest /\
    invoked (trace c') = invoked (trace c) ++ q /\
    senders c' = senders c /\ nodeHandlers c' = nodeHandlers c.
Proof.
  revert c. induction q as [|n q IH]; intros c Hq Hk; simpl.
  - exists c. rewrite app_nil_r. auto.
  - apply Forall_cons in Hk as [[h Hh] Hk].
    unfold bind at 1, handlerQueueLoop_step at 1. rewrite Hq. simpl. rewrite Hh.
    edestruct IH as (c' & Hrun & Hq' & Hi & Hs & Hn); [| |rewrite Hrun].
    + reflexivity.
    + exact Hk.
    + exists c'. split; [reflexivity|]. split; [exact Hq'|].
      simpl in Hi, Hs, Hn. rewrite Hi, invoked_app, <- app_assoc. auto.
Qed.

Lemma handleFrame_enqueues data decompressed node c :
  responseWaiters c = ∅ ->
  waBinary_Unpack data = inl decompressed ->
  waBinary_Unmarshal decompressed = inl node ->
  is_Some (nodeHandlers c !! Tag node) -> Tag node <> "xmlstreamend" ->
  length (handlerQueue c) < handlerQueueSize ->
  exists c',
    handleFrame data c = Ok tt c' /\
    handlerQueue c' = handlerQueue c ++ [node] /\ senders c' = senders c /\
    responseWaiters c' = ∅ /\ nodeHandlers c' = nodeHandlers c /\
    invoked (trace c') = invoked (trace c).
Proof.
  intros Hw Hu Hn [h Hh] Ht Hroom.
  apply String.eqb_neq in Ht. apply Nat.ltb_lt in Hroom.
  unfold handleFrame, receiveResponse. rewrite Hu, Hn.
  unfold_methods. simpl. rewrite Ht.
  destruct (attr_lookup "id" (Attrs node)) as [[id| | |]|]; simpl;
    rewrite ?Hw, ?lookup_empty; simpl; rewrite Hh;
    change (handlerQueue (record (ELog recvLog LvlDebug "%s" [LXML node]) c))
      with (handlerQueue c); rewrite Hroom;
    eexists; (split; [reflexivity|]); simpl;
    rewrite invoked_app; simpl; rewrite app_nil_r; auto.
Qed.

(** X19: without overflow the tag handlers see the nodes in the order
    of their arrival: when no caller waits for a reply, the queue is empty
    and the frames decode to nodes with handlers that fit into the queue,
    handling the frames and then as many consumer turns invoke the
    handlers for these nodes in the order of the frames. *)
Theorem arrival_order_is_kept (datas : list (list Byte.byte)) (nodes : list Node) c :
  responseWaiters c = ∅ ->
  handlerQueue c = [] ->
  Forall2 (fun data node =>
             exists decompressed,
               waBinary_Unpack data = inl decompressed /\
               waBinary_Unmarshal decompressed = inl node) datas nodes ->
  Forall (fun n => is_Some (nodeHandlers c !! Tag n) /\ Tag n <> "xmlstreamend") nodes ->
  length nodes <= handlerQueueSize ->
  exists c1 c2,
    for_range datas handleFrame c = Ok tt c1 /\
    handlerQueue c1 = nodes /\ senders c1 = senders c /\
    handlerQueueLoop (length nodes) c1 = Ok tt c2 /\
    handlerQueue c2 = [] /\
    invoked (trace c2) = invoked (trace c) ++ nodes.
Proof.
  intros Hw Hq Hdec Hk Hlen.
  assert (Hfeed : forall q c,
            responseWaiters c = ∅ -> handlerQueue c = q ->
            Forall (fun n => is_Some (nodeHandlers c !! Tag n) /\
                             Tag n <> "xmlstreamend") nodes ->
            length q + length nodes <= handlerQueueSize ->
            exists c1,
              for_range datas handleFrame c = Ok tt c1 /\
              handlerQueue c1 = q ++ nodes /\ senders c1 = senders c /\
              nodeHandlers c1 = nodeHandlers c /\
              invoked (trace c1) = invoked (trace c)).
  { clear c Hw Hq Hk Hlen.
    induction Hdec as [|data node datas nodes (d & Hu & Hn) _ IH];
      intros q c Hw Hq Hk Hlen; simpl.
    - exists c. rewrite app_nil_r. auto.
    - apply Forall_cons in Hk as [[Hh Ht] Hk]. simpl in Hlen.
      destruct (handleFrame_enqueues data d node c Hw Hu Hn Hh Ht)
        as (c' & Hrun & Hq' & Hs' & Hw' & Hn' & Hi'); [rewrite Hq; lia|].
      unfold bind at 1. rewrite Hrun.
      destruct (IH (q ++ [node]) c') as (c1 & Hrun1 & Hq1 & Hs1 & Hn1 & Hi1).
      + exact Hw'.
      + rewrite Hq', Hq. reflexivity.
      + rewrite Hn'. exact Hk.
      + rewrite length_app. simpl. lia.
      + exists c1. rewrite Hrun1, Hq1, Hs1, Hn1, Hi1, <- app_assoc.
        repeat split; auto. }
  destruct (Hfeed [] c Hw Hq Hk) as (c1 & Hrun & Hq1 & Hs1 & Hn1 & Hi1); [simpl; lia|].
  simpl in Hq1.
  destruct (handlerQueueLoop_fifo nodes [] c1) as (c2 & Hrun2 & Hq2 & Hi2 & _).
  - rewrite app_nil_r. exact Hq1.
  - rewrite Hn1. eapply Forall_impl; [exact Hk|]. intros n [Hh _]. exact Hh.
  - exists c1, c2. rewrite Hi2, Hi1. repeat split; auto.
Qed.

(** X20: no run of a client drops a node that waits for its tag
    handler: after any number of steps the node still waits, in the queue
    or with a sender, or a handler has been invoked with it. *)
Theorem client_run_no_drop c c' node :
  rtc client_step c c' ->
  node ∈ waiting c ->
  exists tr, trace c' = trace c ++ tr /\ (node ∈ waiting c' \/ node ∈ invoked tr).
Proof.
  intros H Hin. pattern c'. eapply rtc_ind_r; [| |exact H].
  - exists []. rewrite app_nil_r. auto.
  - intros y z _ Hstep (tr & Ht & Hw).
    apply client_step_keeps in Hstep as (_ & _ & _ & tr' & Ht' & Hkeep).
    exists (tr ++ tr'). split; [rewrite Ht', Ht; symmetry; apply app_assoc|].
    rewrite invoked_app, elem_of_app.
    destruct Hw as [Hw | Hw]; [|tauto].
    destruct (Hkeep _ Hw); tauto.
Qed.

End MoreRuns.

Section MoreCommand.

Context `{env : Env}.

#[local] Arguments Nat.ltb : simpl never.
#[local] Arguments N.eqb : simpl never.

(** *** The command of the harness *)

(** What a caller of [FetchAppState] can rely on after a return. *)
Lemma FetchAppState_call fuel name fullSync onlyIfNotSynced c r c' :
  FetchAppState fuel name fullSync onlyIfNotSynced c = Ok r c' ->
  appStateSyncLock c = false /\ appStateSyncLock c' = false /\
  exists tr,
    trace c' = trace c ++ tr /\
    versions_deleted tr = (if fullSync then [name] else []) /\
    (fullSync = false -> versions_read tr = [name]) /\
    forall e, r = Some e ->
      exists format cause,
        e = Errorf format [name] cause /\ format ∈ FetchAppState_formats.
Proof.
  intros H. apply FetchAppState_paths in H as (Hl & Hf & body & Ht & Hp).
  split; [exact Hl|]. split.
  { destruct Hf as (_ & _ & _ & _ & E & _). congruence. }
  eexists. split; [exact Ht|].
  assert (Hin : forall format, In format FetchAppState_formats ->
                               format ∈ FetchAppState_formats).
  { intros format. apply list_elem_of_In. }
  destruct Hp as [(-> & -> & cause & ->) | [(-> & cause & ->) | [(-> & -> & _) |
    (rest & tail & -> & Hr & Hend)]]].
  1-3: try destruct fullSync; simpl; repeat split; try reflexivity;
       try (intros; discriminate);
       intros e [= <-]; do 2 eexists; (split; [reflexivity|]);
       apply Hin; simpl; tauto.
  apply sync_calls_projections in Hr as (Hd & Hg & _).
  assert (Htail : versions_deleted tail = [] /\ versions_read tail = []).
  { destruct Hend as [(_ & ->) | (-> & _)]; [|split; reflexivity].
    destruct (_ || _); split; reflexivity. }
  destruct Htail as [Hd' Hg'].
  unfold versions_deleted, versions_read in *.
  rewrite !omap_app. simpl. rewrite !omap_app, Hd, Hg, Hd', Hg'.
  split; [destruct fullSync; reflexivity|].
  split; [destruct fullSync; reflexivity|].
  intros e ->.
  destruct Hend as [(E & _) | (_ & cause & [E | E])]; try discriminate;
    injection E as ->; do 2 eexists; (split; [reflexivity|]);
    apply Hin; simpl; tauto.
Qed.

Lemma versions_deleted_app (t1 t2 : list Effect) :
  versions_deleted (t1 ++ t2) = versions_deleted t1 ++ versions_deleted t2.
Proof. apply omap_app. Qed.

Lemma versions_read_app (t1 t2 : list Effect) :
  versions_read (t1 ++ t2) = versions_read t1 ++ versions_read t2.
Proof. apply omap_app. Qed.

Lemma sync_names_calls fuel resync (names : list appstate.WAPatchName) c errs c' :
  sync_names fuel resync names c = Ok errs c' ->
  (names <> [] -> appStateSyncLock c = false /\ appStateSyncLock c' = false) /\
  exists tr,
    trace c' = trace c ++ tr /\
    versions_deleted tr = (if resync then names else []) /\
    (resync = false -> versions_read tr = names) /\
    length errs <= length names /\
    Forall (fun e => exists format name cause,
                       e = Errorf format [name] cause /\
                       format ∈ FetchAppState_formats /\ name ∈ names) errs.
Proof.
  revert c errs. induction names as [|name names IH]; intros c errs; simpl.
  - intros [= <- <-]. split; [congruence|]. exists []. rewrite app_nil_r.
    destruct resync; repeat split; auto.
  - unfold bind at 1.
    destruct (FetchAppState fuel name resync false c) as [r c1| | |] eqn:E1;
      try discriminate.
    unfold bind at 1.
    destruct (sync_names fuel resync names c1) as [logged c2| | |] eqn:E2;
      try discriminate.
    intros [= <- <-].
    apply FetchAppState_call in E1 as (Hl & Hl1 & tr1 & Ht1 & Hd1 & Hg1 & He1).
    assert (E2' := E2).
    apply IH in E2 as (Hl2 & tr2 & Ht2 & Hd2 & Hg2 & Hlen & He2).
    split.
    { intros _. split; [exact Hl|].
      destruct names; [|apply Hl2; discriminate].
      simpl in E2'. injection E2' as _ <-. exact Hl1. }
    exists (tr1 ++ tr2). split; [rewrite Ht2, Ht1; symmetry; apply app_assoc|].
    rewrite versions_deleted_app, versions_read_app, Hd1, Hd2.
    split; [destruct resync; reflexivity|].
    split; [intros ->; rewrite Hg1, Hg2; reflexivity|].
    assert (Hrest : Forall (fun e => exists format name0 cause,
                       e = Errorf format [name0] cause /\
                       format ∈ FetchAppState_formats /\ name0 ∈ name :: names) logged).
    { eapply Forall_impl; [exact He2|]. intros e (f & n & cause & ? & ? & ?).
      exists f, n, cause. repeat split; auto. apply list_elem_of_further. assumption. }
    destruct r as [e|]; simpl.
    + split; [lia|]. apply List.Forall_cons; [|exact Hrest].
      destruct (He1 e eq_refl) as (f & cause & -> & Hf).
      exists f, name, cause. repeat split; auto. apply list_elem_of_here.
    + split; [lia | exact Hrest].
Qed.

(** X22: the "appstate" command of the harness syncs the collections it
    names one after the other, the five known ones for "all": each is
    deleted first exactly when the second argument is "resync", each is
    read once when it is not, the mutex is free again at the end, and
    every line of error it logs is an error wrapped by [FetchAppState] for
    one of these collections. *)
Theorem handleCmd_appstate_syncs_in_order fuel (args : list string) c errs c' :
  handleCmd_appstate fuel args c = Ok errs c' ->
  exists args0 tr,
    args !! 0 = Some args0 /\
    appStateSyncLock c' = false /\
    trace c' = trace c ++ tr /\
    versions_deleted tr =
      match args !! 1 with
      | Some "resync" => appstate_names args0
      | _ => []
      end /\
    (args !! 1 <> Some "resync" -> versions_read tr = appstate_names args0) /\
    length errs <= length (appstate_names args0) /\
    Forall (fun e => exists format name cause,
                       e = Errorf format [name] cause /\
                       format ∈ FetchAppState_formats /\
                       name ∈ appstate_names args0) errs.
Proof.
  unfold handleCmd_appstate, index_at, bind at 1.
  destruct args as [|args0 rest]; [discriminate|]. simpl.
  set (resync := match rest with a :: _ => String.eqb a "resync" | [] => false end).
  assert (Hrun : forall m : bool -> M (list error),
            bind (if (1 <? S (length rest))%nat
                  then bind (match rest !! 0 with
                             | Some x => ret x
                             | None => panic "index out of range"
                             end) (fun args1 => ret (String.eqb args1 "resync"))
                  else ret false) m c = m resync c).
  { intros m. subst resync. destruct rest as [|a rest]; reflexivity. }
  rewrite Hrun. intros H. exists args0.
  assert (Hne : appstate_names args0 <> []).
  { unfold appstate_names. destruct (String.eqb args0 "all"); discriminate. }
  apply sync_names_calls in H as (Hl & tr & Ht & Hd & Hg & Hlen & He).
  exists tr. split; [reflexivity|]. split; [apply Hl, Hne|]. split; [exact Ht|].
  assert (Hres : resync = true <-> rest !! 0 = Some "resync").
  { subst resync. destruct rest as [|a rest]; simpl; [split; discriminate|].
    rewrite String.eqb_eq. split; [intros ->; reflexivity | intros [= ->]; reflexivity]. }
  split; [|split; [|split; assumption]].
  - rewrite Hd. destruct resync.
    + destruct Hres as [-> _]; reflexivity.
    + destruct (rest !! 0) as [a|] eqn:E; [|reflexivity].
      destruct (String.eqb_spec a "resync") as [-> | Hneq].
      * destruct Hres as [_ Hres]. discriminate Hres; reflexivity.
      * clear - Hneq. repeat (destruct a as [|[[] [] [] [] [] [] [] []] a]; try reflexivity).
        contradiction.
  - intros Hnot. apply Hg. destruct resync; [|reflexivity].
    exfalso. apply Hnot, Hres. reflexivity.
Qed.

End MoreCommand.

Section MoreIdentity.

Context `{env : Env}.

(** *** The ID of a client *)

Lemma split_at_pretty_byte sep (b : Byte.byte) (s : string) :
  sep = Ascii.ascii_of_nat 46 \/ sep = Ascii.ascii_of_nat 45 ->
  split_at sep (pretty (Byte.to_N b) ++ String sep s) =
  Some (pretty (Byte.to_N b), s).
Proof.
  intros [-> | ->]; destruct b; vm_compute; reflexivity.
Qed.

Lemma NewClient_uniqueID_parses deviceStore randomBytes emit w :
  split_uniqueID (uniqueID (NewClient deviceStore randomBytes emit w)) =
  Some (pretty (Byte.to_N (fst randomBytes)), pretty (Byte.to_N (snd randomBytes))).
Proof.
  unfold split_uniqueID, NewClient. cbn [uniqueID].
  change (pretty (Byte.to_N (fst randomBytes)) ++ "." ++
          pretty (Byte.to_N (snd randomBytes)) ++ "-")%string
    with (pretty (Byte.to_N (fst randomBytes)) ++
          String (Ascii.ascii_of_nat 46)
            (pretty (Byte.to_N (snd randomBytes)) ++
             String (Ascii.ascii_of_nat 45) EmptyString))%string.
  rewrite split_at_pretty_byte by (left; reflexivity).
  rewrite split_at_pretty_byte by (right; reflexivity).
  reflexivity.
Qed.

(** X24: the ID that [NewClient] builds from its two random bytes, in
    the form "<a>.<b>-", determines both bytes: two clients have the same
    ID only when they drew the same bytes. *)
Theorem NewClient_uniqueID_injective deviceStore1 deviceStore2
    (randomBytes1 randomBytes2 : Byte.byte * Byte.byte) emit1 emit2 w1 w2 :
  uniqueID (NewClient deviceStore1 randomBytes1 emit1 w1) =
  uniqueID (NewClient deviceStore2 randomBytes2 emit2 w2) ->
  randomBytes1 = randomBytes2.
Proof.
  intros H. apply (f_equal split_uniqueID) in H.
  rewrite !NewClient_uniqueID_parses in H. injection H as H1 H2.
  apply (inj pretty) in H1, H2.
  assert (Hinj : forall a b, Byte.to_N a = Byte.to_N b -> a = b).
  { intros a b E. apply (f_equal Byte.of_N) in E. rewrite !Byte.of_to_N in E.
    congruence. }
  destruct randomBytes1, randomBytes2. simpl in *. f_equal; apply Hinj; assumption.
Qed.

End MoreIdentity.

(** ** Runs on the test bench *)

#[local] Existing Instance Bench.env.

Lemma Bench_delete_resets name w : delete_resets Bench.appStateStore name w.
Proof.
  intros w' Hd v h Hg. simpl in Hd, Hg. injection Hd as <-. injection Hg as <- _.
  simpl. induction (Bench.versions w) as [|[n x] rest IH]; [reflexivity|].
  unfold Bench.forget in *. rewrite filter_cons. case_decide as E; simpl in *.
  - rewrite E. exact IH.
  - exact IH.
Qed.

(** Scenario S4: a mute mutation is written to the chat settings and
    reported by the generic and the typed event. *)
Example scenario_S4_mute :
  trace (Bench.after (dispatchAppState (Bench.SET ["mute"; "1234@s.whatsapp.net"]) true)
           (Bench.client true false false Bench.synced)) =
  [EDispatchEvent
     (events.AppState ["mute"; "1234@s.whatsapp.net"] (Bench.action 1636000000));
   EPutMutedUntil (types.mkJID "1234" 0 0 "s.whatsapp.net" false) (time_Unix 1700000000);
   EDispatchEvent
     (events.Mute (types.mkJID "1234" 0 0 "s.whatsapp.net" false) (time_Unix 1636000000)
        (Some {| waProto.Muted := Some true;
                 waProto.MuteEndTimestamp := Some 1700000000%Z |}))].
Proof. vm_compute. reflexivity. Qed.

(** Scenario S6: the push name is set and saved, then reported. *)
Example scenario_S6_pushName :
  PushName (Store (Bench.after (dispatchAppState (Bench.SET ["setting_pushName"]) true)
                     (Bench.client true false false Bench.synced))) = "Alice" /\
  unlogged (trace (Bench.after (dispatchAppState (Bench.SET ["setting_pushName"]) true)
                     (Bench.client true false false Bench.synced))) =
  [EDispatchEvent (events.AppState ["setting_pushName"] (Bench.action 1636000000));
   ESave "Alice";
   EDispatchEvent
     (events.PushNameSetting (time_Unix 1636000000)
        (Some {| waProto.Name := Some "Alice" |}))].
Proof. split; vm_compute; reflexivity. Qed.

(** A chat-settings store that fails: the write is attempted, its error is
    logged, the typed event is dispatched all the same. *)
Example scenario_store_failure :
  trace (Bench.after (dispatchAppState (Bench.SET ["pin_v1"; "x@y"]) true)
           (Bench.client true true false Bench.synced)) =
  [EDispatchEvent (events.AppState ["pin_v1"; "x@y"] (Bench.action 1636000000));
   EPutPinned (types.mkJID "x" 0 0 "y" false) true;
   ELog Log LvlError "Failed to update device store after app state mutation: %v"
     [LErr (ErrExternal "database is locked")];
   EDispatchEvent
     (events.Pin (types.mkJID "x" 0 0 "y" false) (time_Unix 1636000000)
        (Some {| waProto.Pinned := Some true |}))].
Proof. vm_compute. reflexivity. Qed.

(** Scenario S2: of 2050 notifications that arrive while the consumer is
    stalled, 2048 are in the queue and two are held by waiting senders;
    each of the two was announced by the warning. *)
Example scenario_S2_overflow :
  length (handlerQueue (Bench.feed 2050 [Byte.x01]
                          (Bench.client true false false Bench.synced))) = 2048 /\
  senders (Bench.feed 2050 [Byte.x01] (Bench.client true false false Bench.synced)) =
    [Bench.notification; Bench.notification] /\
  length (filter (fun e => Bench.is_overflow_warning e = true)
            (trace (Bench.feed 2050 [Byte.x01]
                      (Bench.client true false false Bench.synced)))) = 2.
Proof. repeat split; vm_compute; reflexivity. Qed.

(** A full sync of the synced collection with [onlyIfNotSynced] set: two
    patch lists with five mutations, one event. *)
Lemma FetchAppState_full_sync_silence_witness :
  FetchAppState 3 "regular" true true (Bench.client true false false Bench.synced) =
    Ok None (Bench.after (FetchAppState 3 "regular" true true)
               (Bench.client true false false Bench.synced)) /\
  exists tr,
    trace (Bench.after (FetchAppState 3 "regular" true true)
             (Bench.client true false false Bench.synced)) =
      trace (Bench.client true false false Bench.synced) ++ tr ++
        [EDispatchEvent (events.AppStateSyncComplete "regular")] /\
    events_of tr = [].
Proof.
  assert (H : FetchAppState 3 "regular" true true
                (Bench.client true false false Bench.synced) =
              Ok None (Bench.after (FetchAppState 3 "regular" true true)
                         (Bench.client true false false Bench.synced)))
    by (vm_compute; reflexivity).
  split; [exact H|].
  apply (FetchAppState_full_sync_silence 3 "regular" true
           (Bench.client true false false Bench.synced) _
           eq_refl (fun _ => Bench_delete_resets _ _) H).
Defined.

(** C2, the claim as stated fails: with event dispatch enabled, the
    mutation of scenario S5 makes the client dispatch an event, the generic
    [AppState] one. *)
Lemma short_star_index_dispatches_AppState :
  events_of (trace (Bench.client true false false Bench.synced)) = [] /\
  exists c',
    dispatchAppState (Bench.SET ["star"; "chat"; "msg"]) true
      (Bench.client true false false Bench.synced) = Ok tt c' /\
    events_of (trace c') =
      [events.AppState ["star"; "chat"; "msg"] (Bench.action 1636000000)].
Proof. split; [reflexivity|]. eexists. split; vm_compute; reflexivity. Defined.

Lemma dispatchAppState_short_index_witness :
  dispatchAppState (Bench.SET ["deleteMessageForMe"; "chat"; "msg"; "1"]) true
    (Bench.client true false false Bench.synced) =
  Ok tt
    (dispatched
       (events.AppState ["deleteMessageForMe"; "chat"; "msg"; "1"] (Bench.action 1636000000))
       (Bench.client true false false Bench.synced)).
Proof.
  apply (dispatchAppState_short_index
           (Bench.SET ["deleteMessageForMe"; "chat"; "msg"; "1"]) true
           (Bench.client true false false Bench.synced) "deleteMessageForMe").
  - reflexivity.
  - reflexivity.
  - right. reflexivity.
  - simpl. lia.
Defined.

(** The reply to the IQ "abc" goes to its waiter and nowhere else. *)
Lemma handleFrame_correlated_not_queued_witness :
  handleFrame [Byte.x00] Bench.waiting_for_abc =
    Ok tt (Bench.after (handleFrame [Byte.x00]) Bench.waiting_for_abc) /\
  handlerQueue (Bench.after (handleFrame [Byte.x00]) Bench.waiting_for_abc) = [] /\
  senders (Bench.after (handleFrame [Byte.x00]) Bench.waiting_for_abc) = [] /\
  exists waiter,
    trace (Bench.after (handleFrame [Byte.x00]) Bench.waiting_for_abc) =
      trace Bench.waiting_for_abc ++
        [ELog recvLog LvlDebug "%s" [LXML Bench.iq_response];
         EChanSend waiter Bench.iq_response].
Proof.
  apply (handleFrame_correlated_not_queued [Byte.x00] [Byte.x00] Bench.iq_response
           Bench.waiting_for_abc).
  - reflexivity.
  - reflexivity.
  - discriminate.
  - vm_compute. reflexivity.
Defined.

(** C4, the claim as stated fails: "iq" is a key of the handler table,
    and yet the node of this frame, the reply that a caller waits for, is
    neither put into the queue nor handed to a sender. *)
Lemma correlated_iq_is_not_enqueued :
  nodeHandlers Bench.waiting_for_abc !! Tag Bench.iq_response = Some handleIQ /\
  waBinary_Unmarshal [Byte.x00] = inl Bench.iq_response /\
  length (handlerQueue Bench.waiting_for_abc) < 2048 /\
  exists c',
    handleFrame [Byte.x00] Bench.waiting_for_abc = Ok tt c' /\
    (Bench.iq_response ∉ waiting c') /\
    handlerQueue c' = [] /\ senders c' = [].
Proof.
  split; [vm_compute; reflexivity|]. split; [reflexivity|]. split; [simpl; lia|].
  eexists. split; [vm_compute; reflexivity|].
  split; [|split; reflexivity]. unfold waiting. simpl. apply not_elem_of_nil.
Defined.

(** A notification behind a full queue: warning and a waiting sender. *)
Lemma handleFrame_uncorrelated_not_dropped_witness :
  handlerQueueSize = 2048 /\
  exists c',
    handleFrame [Byte.x01] Bench.full_queue = Ok tt c' /\
    Bench.notification ∈ waiting c' /\
    ((length (handlerQueue Bench.full_queue) < 2048 /\
      handlerQueue c' = handlerQueue Bench.full_queue ++ [Bench.notification] /\
      senders c' = senders Bench.full_queue /\
      trace c' =
        trace Bench.full_queue ++ [ELog recvLog LvlDebug "%s" [LXML Bench.notification]]) \/
     (2048 <= length (handlerQueue Bench.full_queue) /\
      handlerQueue c' = handlerQueue Bench.full_queue /\
      senders c' = senders Bench.full_queue ++ [Bench.notification] /\
      trace c' =
        trace Bench.full_queue ++
          [ELog recvLog LvlDebug "%s" [LXML Bench.notification];
           ELog Log LvlWarn
             "Handler queue is full, message ordering is no longer guaranteed" []])).
Proof.
  apply (handleFrame_uncorrelated_not_dropped [Byte.x01] [Byte.x01] Bench.notification
           handleNotification Bench.full_queue
           (record (ELog recvLog LvlDebug "%s" [LXML Bench.notification]) Bench.full_queue)).
  - reflexivity.
  - reflexivity.
  - reflexivity.
  - vm_compute. reflexivity.
  - reflexivity.
Defined.

(** A store that fails every write against one that never fails. *)
Lemma FetchAppState_store_errors_only_logged_witness :
  same_but_errors (Bench.client true true false Bench.synced)
    (Bench.client true false false Bench.synced) /\
  same_outcome eq
    (FetchAppState 3 "regular" false false (Bench.client true true false Bench.synced))
    (FetchAppState 3 "regular" false false (Bench.client true false false Bench.synced)).
Proof.
  assert (H : same_but_errors (Bench.client true true false Bench.synced)
                (Bench.client true false false Bench.synced)).
  { repeat split; try reflexivity; constructor; repeat split. }
  split; [exact H|].
  apply (FetchAppState_store_errors_only_logged 3 "regular" false false _ _ H).
Defined.

(** A mute mutation on a device without chat settings. *)
Lemma dispatchAppState_nil_substore_witness :
  exists evt,
    typed_kind evt = Some "mute" /\
    dispatchAppState (Bench.SET ["mute"; "1234@s.whatsapp.net"]) true
      (Bench.client false false false Bench.synced) =
    Ok tt
      (dispatched evt
         (dispatched
            (events.AppState ["mute"; "1234@s.whatsapp.net"] (Bench.action 1636000000))
            (Bench.client false false false Bench.synced))).
Proof.
  apply (dispatchAppState_nil_substore (Bench.SET ["mute"; "1234@s.whatsapp.net"]) true
           (Bench.client false false false Bench.synced) "mute").
  - reflexivity.
  - reflexivity.
  - left. split; [left; reflexivity | reflexivity].
Defined.

Lemma dispatchAppState_non_SET_is_noop_witness :
  dispatchAppState (Bench.REMOVE ["archive"; "x@y"]) true
    (Bench.client true false false Bench.synced) =
  Ok tt (Bench.client true false false Bench.synced).
Proof.
  apply (dispatchAppState_non_SET_is_noop (Bench.REMOVE ["archive"; "x@y"]) true
           (Bench.client true false false Bench.synced)).
  discriminate.
Defined.

(** An incremental sync with [onlyIfNotSynced] of a collection that was
    never synced, with the events switched on. *)
Lemma FetchAppState_version_0_is_full_sync_witness :
  version_read "regular" false (Bench.client true false true Bench.unsynced) = 0%N /\
  exists tr q rest,
    trace (Bench.after (FetchAppState 3 "regular" false true)
             (Bench.client true false true Bench.unsynced)) =
      trace (Bench.client true false true Bench.unsynced) ++ tr ++ ESendIQ q :: rest ++
        [EDispatchEvent (events.AppStateSyncComplete "regular")] /\
    events_of tr = [] /\
    Namespace q = "w:sync:app:state" /\
    Forall (event_ok (EmitAppStateEventsOnFullSync
                        (Bench.client true false true Bench.unsynced))) rest.
Proof.
  split; [reflexivity|].
  apply (FetchAppState_version_0_is_full_sync 3 "regular" false true
           (Bench.client true false true Bench.unsynced)).
  - reflexivity.
  - vm_compute. reflexivity.
Defined.

Lemma FetchAppState_onlyIfNotSynced_returns_witness :
  FetchAppState 0 "regular" false true (Bench.client true false false Bench.synced) =
    Ok None (record (EGetAppStateVersion "regular")
               (Bench.client true false false Bench.synced)) /\
  GetAppStateVersion (AppState (Store (Bench.client true false false Bench.synced)))
    "regular"
    (world (record (EGetAppStateVersion "regular")
              (Bench.client true false false Bench.synced))) = (5%N, [], None).
Proof.
  apply (FetchAppState_onlyIfNotSynced_returns 0 "regular"
           (Bench.client true false false Bench.synced) 5%N []).
  - reflexivity.
  - reflexivity.
  - discriminate.
Defined.

(** C10, the claim as stated fails: for an [Index[1]] that the parser
    rejects, the store write and the typed event carry the JID that the
    parser returned with its error, which is not the zero JID. *)
Lemma failed_parse_keeps_the_parsed_JID :
  fst (Partial.ParseJID "1234.x:0@s.whatsapp.net") = Partial.partial_jid /\
  snd (Partial.ParseJID "1234.x:0@s.whatsapp.net") =
    Some (ErrExternal "failed to parse agent from JID") /\
  Partial.partial_jid <> types.EmptyJID /\
  exists c',
    dispatchAppState Partial.mute true Partial.client = Ok tt c' /\
    trace c' =
      trace Partial.client ++
        [EDispatchEvent
           (events.AppState ["mute"; "1234.x:0@s.whatsapp.net"] (Bench.action 1636000000));
         EPutMutedUntil Partial.partial_jid (time_Unix 1700000000);
         EDispatchEvent
           (events.Mute Partial.partial_jid (time_Unix 1636000000)
              (Some {| waProto.Muted := Some true;
                       waProto.MuteEndTimestamp := Some 1700000000%Z |}))] /\
    ~ Forall (fun e => forall jid, chat_jid e = Some jid -> jid = types.EmptyJID)
        (drop (length (trace Partial.client)) (trace c')).
Proof.
  split; [reflexivity|]. split; [reflexivity|]. split; [discriminate|].
  eexists. split; [vm_compute; reflexivity|]. split; [reflexivity|].
  intros H. simpl in H.
  apply Forall_cons in H as [_ H]. apply Forall_cons in H as [H _].
  specialize (H Partial.partial_jid eq_refl). discriminate H.
Defined.

(** The same mutation: the parsed JID in the store write and the event. *)
Lemma dispatchAppState_total_witness :
  exists c' tr,
    dispatchAppState Partial.mute true Partial.client = Ok tt c' /\
    trace c' = trace Partial.client ++ tr /\
    Forall store_error_line tr /\
    Forall (fun e => forall jid, chat_jid e = Some jid -> jid = parsed_jid (env := Partial.env) Partial.mute) tr /\
    forall kind,
      appstate.Operation Partial.mute = waProto.SyncdMutation_SET ->
      appstate.Index Partial.mute !! 0 = Some kind ->
      kind ∈ ["mute"; "pin_v1"; "archive"; "contact"] ->
      (true = true ->
       exists evt,
         last tr = Some (EDispatchEvent evt) /\ typed_kind evt = Some kind /\
         chat_jid (EDispatchEvent evt) = Some (parsed_jid (env := Partial.env) Partial.mute)) /\
      (wired kind Partial.client ->
       exists e,
         e ∈ tr /\ is_store_write e = true /\
         chat_jid e = Some (parsed_jid (env := Partial.env) Partial.mute)).
Proof.
  apply (dispatchAppState_total Partial.mute true Partial.client).
  discriminate.
Defined.

(** *** Runs for the further properties *)

(** The reply that a caller waits for: one log line and one delivery. *)
Lemma handleFrame_footprint_witness :
  exists tr,
    trace (Bench.after (handleFrame [Byte.x00]) Bench.waiting_for_abc) =
      trace Bench.waiting_for_abc ++ tr /\
    Forall (fun e => is_log e = true \/ exists ch n, e = EChanSend ch n) tr /\
    world (Bench.after (handleFrame [Byte.x00]) Bench.waiting_for_abc) =
      world Bench.waiting_for_abc /\
    Store (Bench.after (handleFrame [Byte.x00]) Bench.waiting_for_abc) =
      Store Bench.waiting_for_abc /\
    nodeHandlers (Bench.after (handleFrame [Byte.x00]) Bench.waiting_for_abc) =
      nodeHandlers Bench.waiting_for_abc /\
    eventHandlers (Bench.after (handleFrame [Byte.x00]) Bench.waiting_for_abc) =
      eventHandlers Bench.waiting_for_abc /\
    appStateSyncLock (Bench.after (handleFrame [Byte.x00]) Bench.waiting_for_abc) =
      appStateSyncLock Bench.waiting_for_abc.
Proof.
  apply (handleFrame_footprint [Byte.x00] Bench.waiting_for_abc).
  vm_compute. reflexivity.
Defined.

(** An empty frame does not unpack. *)
Lemma handleFrame_codec_error_witness :
  handleFrame [] Wire.client =
    Ok tt (record (ELog Log LvlDebug "Errored frame hex: %s" [LHex []])
             (record (ELog Log LvlWarn "Failed to decompress frame: %v"
                        [LErr (ErrExternal "unexpected EOF")]) Wire.client)).
Proof.
  apply (handleFrame_codec_error [] Wire.client [] "Failed to decompress frame: %v"
           (ErrExternal "unexpected EOF")).
  left. repeat split.
Defined.

(** The end of the stream carries the ID that a caller waits for. *)
Lemma handleFrame_stream_end_witness :
  exists c',
    handleFrame [Byte.xff] Wire.client = Ok tt c' /\
    responseWaiters c' = responseWaiters Wire.client /\
    waiting c' = waiting Wire.client /\
    trace c' =
      trace Wire.client ++ [ELog recvLog LvlDebug "%s" [LXML Wire.stream_end];
                            ELog Log LvlWarn "Received stream end frame" []].
Proof.
  apply (handleFrame_stream_end [Byte.xff] [Byte.xff] Wire.stream_end Wire.client);
    reflexivity.
Defined.

(** A presence node has no handler. *)
Lemma handleFrame_unhandled_tag_witness :
  exists c',
    handleFrame [Byte.x02] Runs.fresh = Ok tt c' /\
    handlerQueue c' = handlerQueue Runs.fresh /\ senders c' = senders Runs.fresh.
Proof.
  apply (handleFrame_unhandled_tag [Byte.x02] [Byte.x02] (mkNode "presence" [] NoContent)
           Runs.fresh).
  - reflexivity.
  - reflexivity.
  - vm_compute. reflexivity.
Defined.

Lemma dispatchAppState_unknown_kind_witness :
  dispatchAppState (Bench.SET ["favoriteSticker"; "x"]) true Runs.fresh =
  Ok tt (dispatched (events.AppState ["favoriteSticker"; "x"] (Bench.action 1636000000))
           Runs.fresh).
Proof.
  apply (dispatchAppState_unknown_kind (Bench.SET ["favoriteSticker"; "x"]) true
           Runs.fresh "favoriteSticker").
  - reflexivity.
  - reflexivity.
  - repeat (apply not_elem_of_cons; split; [discriminate|]). apply not_elem_of_nil.
Defined.

Lemma dispatchAppState_PushName_witness :
  PushName (Store (Bench.after (dispatchAppState (Bench.SET ["setting_pushName"]) true)
                     Runs.fresh)) = "Alice".
Proof.
  apply (dispatchAppState_PushName (Bench.SET ["setting_pushName"]) true Runs.fresh
           (Bench.after (dispatchAppState (Bench.SET ["setting_pushName"]) true)
              Runs.fresh)).
  vm_compute. reflexivity.
Defined.

Lemma dispatchAppState_writes_without_events_witness :
  filter (fun e => is_store_write e = true)
    (trace (Bench.after (dispatchAppState (Bench.SET ["mute"; "1234@s.whatsapp.net"]) true)
              Runs.fresh)) =
  filter (fun e => is_store_write e = true)
    (trace (Bench.after (dispatchAppState (Bench.SET ["mute"; "1234@s.whatsapp.net"]) false)
              Runs.fresh)) /\
  Store (Bench.after (dispatchAppState (Bench.SET ["mute"; "1234@s.whatsapp.net"]) true)
           Runs.fresh) =
  Store (Bench.after (dispatchAppState (Bench.SET ["mute"; "1234@s.whatsapp.net"]) false)
           Runs.fresh).
Proof.
  apply (dispatchAppState_writes_without_events (Bench.SET ["mute"; "1234@s.whatsapp.net"])
           Runs.fresh); vm_compute; reflexivity.
Defined.

(** The typed event of a push name is the third and last call. *)
Lemma dispatchAppState_event_order_witness :
  3 = length (trace (Bench.after (dispatchAppState (Bench.SET ["setting_pushName"]) true)
                       Runs.fresh)) /\
  appstate.Index (Bench.SET ["setting_pushName"]) !! 0 = Some "setting_pushName".
Proof.
  apply (dispatchAppState_event_order (Bench.SET ["setting_pushName"]) true Runs.fresh
           (Bench.after (dispatchAppState (Bench.SET ["setting_pushName"]) true) Runs.fresh)
           (trace (Bench.after (dispatchAppState (Bench.SET ["setting_pushName"]) true)
                     Runs.fresh))
           2
           (events.PushNameSetting (time_Unix 1636000000)
              (Some {| waProto.Name := Some "Alice" |})));
    vm_compute; reflexivity.
Defined.

(** Two SET mutations around a REMOVE, events on. *)
Lemma dispatch_mutations_generic_events_witness :
  exists tr,
    trace (Bench.after (for_range Runs.batch (dispatch_mutation false)) Runs.fresh) =
      trace Runs.fresh ++ tr /\
    omap generic_of tr =
      [(["mute"; "1234@s.whatsapp.net"], Bench.action 1636000000);
       (["setting_pushName"], Bench.action 1636000000)].
Proof.
  apply (dispatch_mutations_generic_events Runs.batch false Runs.fresh
           (Bench.after (for_range Runs.batch (dispatch_mutation false)) Runs.fresh)).
  vm_compute. reflexivity.
Defined.

(** A full sync of the synced collection. *)
Lemma FetchAppState_releases_mutex_witness :
  appStateSyncLock (Bench.client true false false Bench.synced) = false /\
  appStateSyncLock (Bench.after (FetchAppState 3 "regular" true false)
                      (Bench.client true false false Bench.synced)) = false /\
  same_frame (Bench.client true false false Bench.synced)
    (Bench.after (FetchAppState 3 "regular" true false)
       (Bench.client true false false Bench.synced)).
Proof.
  apply (FetchAppState_releases_mutex 3 "regular" true false
           (Bench.client true false false Bench.synced) None).
  vm_compute. reflexivity.
Defined.

(** A server without patches. *)
Lemma FetchAppState_error_is_wrapped_witness :
  exists format cause,
    Errorf "failed to fetch app state %s patches: %w" ["regular"]
      (ErrExternal "no patches") = Errorf format ["regular"] cause /\
    format ∈ FetchAppState_formats.
Proof.
  apply (FetchAppState_error_is_wrapped 3 "regular" false false Runs.fresh
           (Errorf "failed to fetch app state %s patches: %w" ["regular"]
              (ErrExternal "no patches"))
           (Bench.after (FetchAppState 3 "regular" false false) Runs.fresh)).
  vm_compute. reflexivity.
Defined.

Lemma FetchAppState_events_witness :
  exists tr evs,
    trace (Bench.after (FetchAppState 3 "regular" true false)
             (Bench.client true false false Bench.synced)) =
      trace (Bench.client true false false Bench.synced) ++ tr /\
    Forall (fun e => events.per_mutation e = true) evs /\
    events_of tr =
      evs ++
      match @None error, queries tr with
      | None, _ :: _ =>
          if true || (version_read "regular" true
                        (Bench.client true false false Bench.synced) =? 0)%N
          then [events.AppStateSyncComplete "regular"] else []
      | _, _ => []
      end.
Proof.
  apply (FetchAppState_events 3 "regular" true false
           (Bench.client true false false Bench.synced) None).
  vm_compute. reflexivity.
Defined.

Lemma FetchAppState_queries_witness :
  exists tr,
    trace (Bench.after (FetchAppState 3 "regular" false false)
             (Bench.client true false false Bench.synced)) =
      trace (Bench.client true false false Bench.synced) ++ tr /\
    Forall (fun q => exists v, q = sync_query "regular" v) (queries tr) /\
    (forall q, head (queries tr) = Some q ->
               q = sync_query "regular"
                     (version_read "regular" false
                        (Bench.client true false false Bench.synced))) /\
    Forall (fun e => forall st v, e = EDecodePatches st v -> v = true) tr.
Proof.
  apply (FetchAppState_queries 3 "regular" false false
           (Bench.client true false false Bench.synced) None).
  vm_compute. reflexivity.
Defined.

Lemma FetchAppState_store_access_witness :
  exists tr,
    trace (Bench.after (FetchAppState 3 "regular" true false)
             (Bench.client true false false Bench.synced)) =
      trace (Bench.client true false false Bench.synced) ++ tr /\
    versions_deleted tr = ["regular"] /\
    (true = true -> head tr = Some (EDeleteAppStateVersion "regular")) /\
    (versions_read tr = ["regular"] \/
     versions_read tr = [] /\ true = true /\
     exists cause,
       @None error =
         Some (Errorf "failed to reset app state %s version: %w" ["regular"] cause)).
Proof.
  apply (FetchAppState_store_access 3 "regular" true false
           (Bench.client true false false Bench.synced) None).
  vm_compute. reflexivity.
Defined.

(** A new client after its first frame. *)
Lemma client_run_invariant_witness :
  length (handlerQueue Runs.arrived) <= 2048 /\
  nodeHandlers Runs.arrived = NewClient_nodeHandlers /\
  handlers_known Runs.arrived.
Proof.
  apply (client_run_invariant (Bench.device true false) (Byte.x07, Byte.x2a) false
           (Bench.world0 [] []) Runs.arrived).
  apply rtc_once, step_dispatcher, (step_frame _ _ [Byte.x01]).
  vm_compute. reflexivity.
Defined.

Lemma consumer_finds_handler_witness :
  exists h c',
    NewClient_nodeHandlers !! Tag Bench.notification = Some h /\
    handlerQueueLoop_step Runs.arrived = Ok tt c' /\
    handlerQueue c' = [] /\
    trace c' = trace Runs.arrived ++ [EInvokeHandler h Bench.notification] /\
    world c' = run_nodeHandler h Bench.notification (world Runs.arrived).
Proof.
  apply (consumer_finds_handler (Bench.device true false) (Byte.x07, Byte.x2a) false
           (Bench.world0 [] []) Runs.arrived Bench.notification []).
  - apply rtc_once, step_dispatcher, (step_frame _ _ [Byte.x01]).
    vm_compute. reflexivity.
  - vm_compute. reflexivity.
Defined.

(** The consumer on a queue of a notification and an IQ. *)
Lemma handlerQueueLoop_fifo_witness :
  exists c',
    handlerQueueLoop 2 Runs.queued = Ok tt c' /\
    handlerQueue c' = [] /\
    invoked (trace c') =
      invoked (trace Runs.queued) ++ [Bench.notification; Bench.iq_response] /\
    senders c' = senders Runs.queued /\ nodeHandlers c' = nodeHandlers Runs.queued.
Proof.
  apply (handlerQueueLoop_fifo [Bench.notification; Bench.iq_response] [] Runs.queued).
  - vm_compute. reflexivity.
  - apply List.Forall_cons; [exists handleNotification; vm_compute; reflexivity|].
    apply List.Forall_cons; [exists handleIQ; vm_compute; reflexivity|].
    apply List.Forall_nil.
Defined.

Lemma arrival_order_is_kept_witness :
  exists c1 c2,
    for_range Runs.frames handleFrame Runs.fresh = Ok tt c1 /\
    handlerQueue c1 = [Bench.notification; Bench.iq_response] /\
    senders c1 = senders Runs.fresh /\
    handlerQueueLoop 2 c1 = Ok tt c2 /\
    handlerQueue c2 = [] /\
    invoked (trace c2) =
      invoked (trace Runs.fresh) ++ [Bench.notification; Bench.iq_response].
Proof.
  apply (arrival_order_is_kept Runs.frames [Bench.notification; Bench.iq_response]
           Runs.fresh).
  - vm_compute. reflexivity.
  - vm_compute. reflexivity.
  - apply List.Forall2_cons; [exists [Byte.x01]; split; reflexivity|].
    apply List.Forall2_cons; [exists [Byte.x00]; split; reflexivity|].
    apply List.Forall2_nil.
  - apply List.Forall_cons;
      [split; [exists handleNotification; vm_compute; reflexivity | discriminate]|].
    apply List.Forall_cons;
      [split; [exists handleIQ; vm_compute; reflexivity | discriminate]|].
    apply List.Forall_nil.
  - unfold handlerQueueSize. simpl. lia.
Defined.

(** The notification is served by the consumer. *)
Lemma client_run_no_drop_witness :
  exists tr,
    trace (Bench.after handlerQueueLoop_step Runs.arrived) = trace Runs.arrived ++ tr /\
    (Bench.notification ∈ waiting (Bench.after handlerQueueLoop_step Runs.arrived) \/
     Bench.notification ∈ invoked tr).
Proof.
  apply (client_run_no_drop Runs.arrived (Bench.after handlerQueueLoop_step Runs.arrived)
           Bench.notification).
  - apply rtc_once, step_dispatcher, step_consumer. vm_compute. reflexivity.
  - vm_compute. apply list_elem_of_here.
Defined.

(** "appstate regular resync" on the synced collection. *)
Lemma handleCmd_appstate_syncs_in_order_witness :
  exists args0 tr,
    ["regular"; "resync"] !! 0 = Some args0 /\
    appStateSyncLock (Bench.after (handleCmd_appstate 3 ["regular"; "resync"])
                        (Bench.client true false false Bench.synced)) = false /\
    trace (Bench.after (handleCmd_appstate 3 ["regular"; "resync"])
             (Bench.client true false false Bench.synced)) =
      trace (Bench.client true false false Bench.synced) ++ tr /\
    versions_deleted tr =
      match ["regular"; "resync"] !! 1 with
      | Some "resync" => appstate_names args0
      | _ => []
      end /\
    (["regular"; "resync"] !! 1 <> Some "resync" ->
     versions_read tr = appstate_names args0) /\
    length (@nil error) <= length (appstate_names args0) /\
    Forall (fun e => exists format name cause,
                       e = Errorf format [name] cause /\
                       format ∈ FetchAppState_formats /\
                       name ∈ appstate_names args0) [].
Proof.
  apply (handleCmd_appstate_syncs_in_order 3 ["regular"; "resync"]
           (Bench.client true false false Bench.synced) []).
  vm_compute. reflexivity.
Defined.

(** Two clients that drew the same bytes. *)
Lemma NewClient_uniqueID_injective_witness :
  (Byte.x07, Byte.x2a) = (Byte.x07, Byte.x2a).
Proof.
  apply (NewClient_uniqueID_injective (Bench.device true false) (Bench.device false true)
           (Byte.x07, Byte.x2a) (Byte.x07, Byte.x2a) false true
           (Bench.world0 [] []) Bench.synced).
  reflexivity.
Defined.
